(** * mvsep: chunked inference, dataset segmenting, training checkpoints

    A shallow embedding of [src/mvsep.py].  Tensors are nested lists of
    rationals: every float of the program is read as the exact rational it
    denotes and float rounding is left out.  The numeric backend (STFT, its
    inverse, the network's forward pass, square root, atan2, cos, sin) is
    abstract: it enters as a [Backend] record.  Python exceptions are values
    of [PyError]; code that loads files, runs the transform or the model
    also records what it did in a trace of [Event]s. *)

From Stdlib Require Import String ZArith QArith Qminmax Qabs Bool List Lia Lqa.
Import ListNotations.

Local Open Scope Z_scope.

(** ** Errors and the two monads *)

Inductive PyError : Type :=
| ValueError (msg : string)
| ZeroDivisionError
| RuntimeError (msg : string)
| FileNotFoundError.

(** [Err A]: a computation that returns or raises. *)
Definition Err (A : Type) : Type := (PyError + A)%type.

Definition ok {A} (a : A) : Err A := inr a.
Definition raise {A} (e : PyError) : Err A := inl e.

Definition ebind {A B} (c : Err A) (k : A -> Err B) : Err B :=
  match c with
  | inl e => inl e
  | inr a => k a
  end.

Declare Scope err_scope.
Delimit Scope err_scope with err.
Notation "x <- c ;; k" := (ebind c (fun x => k))
  (at level 61, c at next level, right associativity) : err_scope.

Fixpoint mapM {A B} (f : A -> Err B) (l : list A) : Err (list B) :=
  match l with
  | [] => ok []
  | a :: l' =>
      (b <- f a ;; bs <- mapM f l' ;; ok (b :: bs))%err
  end.

Fixpoint foldM {A S} (f : S -> A -> Err S) (l : list A) (s : S) : Err S :=
  match l with
  | [] => ok s
  | a :: l' => (s' <- f s a ;; foldM f l' s')%err
  end.

(** ** Python integers, [range] and slices *)

(** [a // b] and [a % b]: floor division, the remainder has the sign of the
    divisor, as [Z.div] and [Z.modulo]; a zero divisor raises. *)
Definition floordiv (a b : Z) : Err Z :=
  if b =? 0 then raise ZeroDivisionError else ok (a / b).

Definition pymod (a b : Z) : Err Z :=
  if b =? 0 then raise ZeroDivisionError else ok (a mod b).

(** [len(range(start, stop, step))], as CPython computes it. *)
Definition range_len (start stop step : Z) : Z :=
  if 0 <? step then
    if start <? stop then (stop - start - 1) / step + 1 else 0
  else
    if stop <? start then (start - stop - 1) / (- step) + 1 else 0.

Definition py_range (start stop step : Z) : Err (list Z) :=
  if step =? 0 then raise (ValueError "range() arg 3 must not be zero")
  else ok (map (fun k => start + Z.of_nat k * step)
               (seq 0 (Z.to_nat (range_len start stop step)))).

(** A slice bound on a sequence of length [n]: negative bounds count from
    the end, and every bound is clamped into [0, n]. *)
Definition norm_index (n a : Z) : Z :=
  if a <? 0 then Z.max (a + n) 0 else Z.min a n.

Definition slice_bounds {A} (l : list A) (a : Z) (b : option Z) : nat * nat :=
  let n := Z.of_nat (length l) in
  let lo := norm_index n a in
  let hi := match b with Some b => norm_index n b | None => n end in
  (Z.to_nat lo, Z.to_nat (hi - lo)).

(** [l[a:b]]; [b = None] is the open slice [l[a:]]. *)
Definition py_slice {A} (l : list A) (a : Z) (b : option Z) : list A :=
  let '(lo, len) := slice_bounds l a b in
  firstn len (skipn lo l).

(** Broadcasting a 1-d source to a slice of [n] elements: equal length, or
    a single element repeated; anything else is a shape error. *)
Definition broadcast_to (vals : list Q) (n : nat) : Err (list Q) :=
  if (length vals =? n)%nat then ok vals
  else match vals with
       | [v] => ok (repeat v n)
       | _ => raise (RuntimeError "shape mismatch")
       end.

(** [l[a:b] = op(l[a:b], vals)], in place: the elements outside the slice
    keep their value. *)
Definition slice_update (op : Q -> Q -> Q) (l : list Q) (a : Z) (b : option Z)
    (vals : list Q) : Err (list Q) :=
  let '(lo, len) := slice_bounds l a b in
  let mid := firstn len (skipn lo l) in
  (vs <- broadcast_to vals (length mid) ;;
   ok (firstn lo l ++ map (fun p => op (fst p) (snd p)) (combine mid vs)
         ++ skipn (lo + length mid) l))%err.

(** [l[a:b] = vals], [l[a:b] *= vals], [l[a:b] += vals]. *)
Definition slice_assign := slice_update (fun _ v => v).
Definition slice_imul := slice_update Qmult.
Definition slice_iadd := slice_update Qplus.

(** ** Tensors *)

(** A waveform, shape (channels, samples). *)
Definition Tensor2 : Type := list (list Q).
(** A real spectrogram, shape (channels, frequency bins, time frames). *)
Definition Tensor3 : Type := list (list (list Q)).

Definition shape0 {A} (t : list A) : Z := Z.of_nat (length t).

Definition shape1 {A} (t : list (list A)) : Z :=
  match t with
  | r :: _ => Z.of_nat (length r)
  | [] => 0
  end.

Definition shape2 {A} (t : list (list (list A))) : Z :=
  match t with
  | (r :: _) :: _ => Z.of_nat (length r)
  | _ => 0
  end.

(** Every row of a (channels, samples) tensor has [n] samples. *)
Definition rect {A} (n : nat) (t : list (list A)) : Prop :=
  Forall (fun r => length r = n) t.

Definition zeros_like (t : Tensor2) : Tensor2 :=
  map (map (fun _ => 0%Q)) t.

(** [torch.clamp(x, lo, hi)] is [min(max(x, lo), hi)]. *)
Definition clamp (lo hi x : Q) : Q := Qmin (Qmax x lo) hi.

Definition clamp_tensor (lo hi : Q) (t : Tensor2) : Tensor2 :=
  map (map (clamp lo hi)) t.

(** Row by row application of a binary row operation that may raise; the
    two tensors must have the same number of rows. *)
Fixpoint rows2 (f : list Q -> list Q -> Err (list Q)) (t s : Tensor2)
  : Err Tensor2 :=
  match t, s with
  | [], [] => ok []
  | r :: t', q :: s' =>
      (r' <- f r q ;; rest <- rows2 f t' s' ;; ok (r' :: rest))%err
  | _, _ => raise (RuntimeError "shape mismatch")
  end.

(** [torch.linspace(start, stop, steps)]. *)
Definition linspace (start stop : Q) (steps : Z) : Err (list Q) :=
  if steps <? 0 then raise (RuntimeError "number of steps must be non-negative")
  else if steps =? 1 then ok [start]
  else ok (map (fun k => (start + inject_Z (Z.of_nat k) * ((stop - start) / inject_Z (steps - 1)))%Q)
               (seq 0 (Z.to_nat steps))).

(** ** Traces *)

(** What the program does to the outside world, in order. *)
Inductive Event : Type :=
| EvLoadCheckpoint
| EvLoadAudio (file : string)
| EvStft
| EvForward
| EvIstft
| EvSaveAudio (path : string) (w : Tensor2) (sample_rate : Z)
| EvPrint (msg : string).

(** [Run A]: a computation that logs events and returns or raises. *)
Definition Run (A : Type) : Type := (list Event * Err A)%type.

Definition ret {A} (a : A) : Run A := ([], ok a).
Definition emit (e : Event) : Run unit := ([e], ok tt).
Definition lift {A} (c : Err A) : Run A := ([], c).

Definition rbind {A B} (c : Run A) (k : A -> Run B) : Run B :=
  match c with
  | (log, inl e) => (log, inl e)
  | (log, inr a) => let '(log', r) := k a in (log ++ log', r)
  end.

Declare Scope run_scope.
Delimit Scope run_scope with run.
Notation "x <- c ;; k" := (rbind c (fun x => k))
  (at level 61, c at next level, right associativity) : run_scope.
Notation "c ;;; k" := (rbind c (fun _ => k))
  (at level 61, right associativity) : run_scope.

Fixpoint rfoldM {A S} (f : S -> A -> Run S) (l : list A) (s : S) : Run S :=
  match l with
  | [] => ret s
  | a :: l' => (s' <- f s a ;; rfoldM f l' s')%run
  end.

Definition trace {A} (c : Run A) : list Event := fst c.
Definition outcome {A} (c : Run A) : Err A := snd c.

(** An event of the transform or of the model. *)
Definition is_compute (e : Event) : bool :=
  match e with
  | EvStft | EvForward | EvIstft => true
  | _ => false
  end.

Definition is_forward (e : Event) : bool :=
  match e with
  | EvForward => true
  | _ => false
  end.

(** ** The numeric backend *)

(** A complex spectrogram, shape (channels, frequency bins, time frames),
    every bin a pair (real part, imaginary part). *)
Definition CTensor3 : Type := list (list (list (Q * Q))).

(** What torch and torchaudio provide.  [forward] is the network in
    evaluation mode on one sample; the batch axis of size one that
    [inference] adds before the call and removes after it is left out.
    [load_state_dict model state] is the lenient load of [inference]
    ([strict=False]).  [train_batch params opt scaler sched mixture
    target_mag target_phase] is lines 180-190 of [train]: forward pass
    under autocast, [loss_fn], scaled backward pass, optimizer step with
    the learning rate of the scheduler after [sched] steps; it returns
    [loss.item()] and the new states. *)
Record Backend : Type := {
  Params : Type;
  OptState : Type;
  ScalerState : Type;
  sqrtQ : Q -> Q;
  atan2Q : Q -> Q -> Q;
  cosQ : Q -> Q;
  sinQ : Q -> Q;
  stft : Z -> Z -> Tensor2 -> CTensor3;
  istft : Z -> Z -> CTensor3 -> Z -> Tensor2;
  forward : Params -> Tensor3 -> Tensor3 * Tensor3;
  load_state_dict : Params -> Params -> Params;
  new_scaler : ScalerState;
  train_batch : Params -> OptState -> ScalerState -> Z ->
                list Tensor3 -> list Tensor3 -> list Tensor3 ->
                Q * Params * OptState * ScalerState
}.

Definition map3 {A B} (f : A -> B) (t : list (list (list A))) : list (list (list B)) :=
  map (map (map f)) t.

(** Elementwise binary operation on two tensors of one shape. *)
Definition zip3 (f : Q -> Q -> Q) (t s : Tensor3) : Tensor3 :=
  map (fun cs => map (fun rq => map (fun p => f (fst p) (snd p))
                                    (combine (fst rq) (snd rq)))
                     (combine (fst cs) (snd cs)))
      (combine t s).

Definition Qsum (l : list Q) : Q := fold_right Qplus 0%Q l.

Definition eps : Q := 1 # 100000000.

(** [c.mean()] and [c.std()] of one channel over both of its axes; [std]
    is torch's default, the unbiased estimate (divisor [N - 1]).  For a
    channel of one entry torch's std is NaN and for an empty one its mean is
    too; the rationals have no NaN, and what is proved of these statistics
    assumes at least two entries. *)
Definition chan_mean (c : list (list Q)) : Q :=
  (Qsum (concat c) / inject_Z (Z.of_nat (length (concat c))))%Q.

Definition chan_var (c : list (list Q)) : Q :=
  let m := chan_mean c in
  (Qsum (map (fun x => (x - m) * (x - m)) (concat c))
   / inject_Z (Z.of_nat (length (concat c)) - 1))%Q.

Section WithBackend.

Variable B : Backend.

Definition chan_std (c : list (list Q)) : Q := sqrtQ B (chan_var c).

(** [t.mean(dim=(1, 2), keepdim=True)] and [t.std(dim=(1, 2), keepdim=True)]:
    one scalar per channel. *)
Definition mean12 (t : Tensor3) : list Q := map chan_mean t.
Definition std12 (t : Tensor3) : list Q := map chan_std t.

(** A (channels, 1, 1) tensor of statistics broadcast against a
    (channels, F, T) tensor. *)
Definition with_stats (f : Q -> Q -> Q -> Q) (t : Tensor3) (mean std : list Q)
  : Tensor3 :=
  map (fun cms => map (map (fun x => f x (fst (snd cms)) (snd (snd cms))))
                      (fst cms))
      (combine t (combine mean std)).

(** [(mag - mean) / (std + 1e-8)], with the statistics it used. *)
Definition normalize (mag : Tensor3) : Tensor3 * list Q * list Q :=
  let mean := mean12 mag in
  let std := std12 mag in
  (with_stats (fun x m s => (x - m) / (s + eps))%Q mag mean std, mean, std).

(** [x * std + mean]. *)
Definition denormalize (x : Tensor3) (mean std : list Q) : Tensor3 :=
  with_stats (fun x m s => x * s + m)%Q x mean std.

(** [torch.abs] and [torch.angle] of a complex tensor. *)
Definition cabs (z : Q * Q) : Q :=
  sqrtQ B (fst z * fst z + snd z * snd z)%Q.
Definition cangle (z : Q * Q) : Q := atan2Q B (snd z) (fst z).

(** [mag * torch.exp(1j * phase)]. *)
Definition polar (mag phase : Tensor3) : CTensor3 :=
  map (fun cs => map (fun rq => map (fun p => (fst p * cosQ B (snd p),
                                                fst p * sinQ B (snd p))%Q)
                                    (combine (fst rq) (snd rq)))
                     (combine (fst cs) (snd cs)))
      (combine mag phase).

(** ** Inference *)

(** Lines 244-274: one chunk through transform, model and inverse
    transform.  The predicted phase is computed and not used. *)
Definition separate_chunk (params : Params B) (n_fft hop_length chunk_size : Z)
    (chunk : Tensor2) : Run Tensor2 :=
  (emit EvStft ;;;
   let chunk_spec := stft B n_fft hop_length chunk in
   let chunk_mag := map3 cabs chunk_spec in
   let chunk_phase := map3 cangle chunk_spec in
   let '(chunk_mag_normalized, chunk_mag_mean, chunk_mag_std) :=
     normalize chunk_mag in
   emit EvForward ;;;
   let '(pred_mag, pred_phase) := forward B params chunk_mag_normalized in
   let inst_mag := zip3 Qminus chunk_mag_normalized pred_mag in
   let inst_phase := chunk_phase in
   let inst_mag := denormalize inst_mag chunk_mag_mean chunk_mag_std in
   let inst_spec := polar inst_mag inst_phase in
   emit EvIstft ;;;
   ret (istft B n_fft hop_length inst_spec chunk_size))%run.

(** Lines 276-291: the chunk that starts at [i] goes into the output
    buffer.  [inst_chunk] is scaled in place before its head is added. *)
Definition overlap_add (i chunk_size cross_fade_length : Z)
    (instrumentals inst_chunk : Tensor2) : Err Tensor2 :=
  (st <- (if 0 <? i then
            fade_in <- linspace 0 1 cross_fade_length ;;
            fade_out <- linspace 1 0 cross_fade_length ;;
            inst_chunk <- mapM (fun r => slice_imul r 0 (Some cross_fade_length) fade_in)
                               inst_chunk ;;
            instrumentals <- mapM (fun r => slice_imul r i (Some (i + cross_fade_length))
                                                       fade_out)
                                  instrumentals ;;
            instrumentals <- rows2 (fun r q => slice_iadd r i (Some (i + cross_fade_length))
                                                 (py_slice q 0 (Some cross_fade_length)))
                                   instrumentals inst_chunk ;;
            ok (instrumentals, inst_chunk)
          else ok (instrumentals, inst_chunk)) ;;
   rows2 (fun r q => slice_assign r (i + cross_fade_length) (Some (i + chunk_size))
                                  (py_slice q cross_fade_length None))
         (fst st) (snd st))%err.

(** The body of the loop at line 241. *)
Definition chunk_iteration (params : Params B)
    (input_audio : Tensor2) (chunk_size cross_fade_length n_fft hop_length : Z)
    (instrumentals : Tensor2) (i : Z) : Run Tensor2 :=
  (let chunk := map (fun r => py_slice r i (Some (i + chunk_size))) input_audio in
   inst_chunk <- separate_chunk params n_fft hop_length chunk_size chunk ;;
   lift (overlap_add i chunk_size cross_fade_length instrumentals inst_chunk))%run.

(** Lines 214-299.  [checkpoint_model] is the ['model_state_dict'] of the
    checkpoint file and [(input_audio, sr)] what [torchaudio.load] returns
    for the input file; both files are taken to exist.  The result is the
    waveform written to [output_instrumentals_path]. *)
Definition inference (model checkpoint_model : Params B)
    (input_audio : Tensor2) (sr : Z) (output_instrumentals_path : string)
    (chunk_size overlap n_fft hop_length : Z) : Run Tensor2 :=
  (emit EvLoadCheckpoint ;;;
   let params := load_state_dict B model checkpoint_model in
   emit (EvLoadAudio "input_wav") ;;;
   if negb (shape0 input_audio =? 2) then
     lift (raise (ValueError "Input audio must have 2 channels."))
   else
     let total_length := shape1 input_audio in
     num_chunks <- lift (floordiv (total_length - overlap) (chunk_size - overlap)) ;;
     let instrumentals := zeros_like input_audio in
     let cross_fade_length := overlap / 2 in
     starts <- lift (py_range 0 (total_length - chunk_size + 1) (chunk_size - overlap)) ;;
     instrumentals <- rfoldM (chunk_iteration params input_audio chunk_size
                                cross_fade_length n_fft hop_length)
                             starts instrumentals ;;
     let instrumentals := clamp_tensor (-1) 1 instrumentals in
     emit (EvSaveAudio output_instrumentals_path instrumentals sr) ;;;
     ret instrumentals)%run.

(** ** The dataset *)

Record Track : Type := {
  other_wav : Tensor2;
  vocals_wav : Tensor2
}.

Record MUSDBDataset : Type := {
  segment_length : Z;
  n_fft : Z;
  hop_length : Z;
  segment : bool
}.

(** [torch.randint(low, high, (1,))]: an integer of [low, high), chosen by
    the generator's [draw]; an empty interval raises. *)
Definition randint (low high draw : Z) : Err Z :=
  if high <=? low
  then raise (RuntimeError "random_ expects 'from' to be less than 'to'")
  else ok (low + draw mod (high - low)).

(** [F.pad(t, (0, n))]: [n] zeros after the last time frame. *)
Definition pad_trailing (n : Z) (t : Tensor3) : Tensor3 :=
  map (map (fun r => r ++ repeat 0%Q (Z.to_nat n))) t.

(** [t[:, :, a:b]]. *)
Definition slice_frames (a b : Z) (t : Tensor3) : Tensor3 :=
  map (map (fun r => py_slice r a (Some b))) t.

(** Lines 139-147. *)
Definition segment_specs (ds : MUSDBDataset) (draw : Z)
    (mixture_spec vocals_spec : Tensor3) : Err (Tensor3 * Tensor3) :=
  if segment ds && negb (segment_length ds =? 0) then
    (frames <- floordiv (segment_length ds) (hop_length ds) ;;
     if shape2 mixture_spec >=? frames then
       start <- randint 0 (shape2 mixture_spec - frames) draw ;;
       ok (slice_frames start (start + frames) mixture_spec,
           slice_frames start (start + frames) vocals_spec)
     else
       ok (pad_trailing (frames - shape2 mixture_spec) mixture_spec,
           pad_trailing (frames - shape2 vocals_spec) vocals_spec))%err
  else ok (mixture_spec, vocals_spec).

(** Lines 131-137: magnitude of a complex spectrogram, normalized. *)
Definition magnitude_normalized (spec : CTensor3) : Tensor3 :=
  fst (fst (normalize (map3 cabs spec))).

(** [__getitem__], lines 109-149, on the two files of one track.  With
    [return_complex=False] the transform returns (real, imaginary) pairs,
    which is what [CTensor3] holds, so the check of line 128 cannot fail. *)
Definition getitem (ds : MUSDBDataset) (track : Track) (draw : Z)
  : Run (Tensor3 * Tensor3 * Tensor2 * Tensor2) :=
  (emit (EvLoadAudio "other.wav") ;;;
   let mixture := other_wav track in
   emit (EvLoadAudio "vocals.wav") ;;;
   let vocals := vocals_wav track in
   if negb (shape0 mixture =? 2) || negb (shape0 vocals =? 2) then
     lift (raise (ValueError "Audio files must have 2 channels."))
   else
     let min_length := Z.min (shape1 mixture) (shape1 vocals) in
     let mixture := map (fun r => py_slice r 0 (Some min_length)) mixture in
     let vocals := map (fun r => py_slice r 0 (Some min_length)) vocals in
     emit EvStft ;;;
     let mixture_spec := stft B (n_fft ds) (hop_length ds) mixture in
     emit EvStft ;;;
     let vocals_spec := stft B (n_fft ds) (hop_length ds) vocals in
     let mixture_spec := magnitude_normalized mixture_spec in
     let vocals_spec := magnitude_normalized vocals_spec in
     specs <- lift (segment_specs ds draw mixture_spec vocals_spec) ;;
     ret (fst specs, snd specs, mixture, vocals))%run.

(** ** Training *)

(** The float32 nearest to pi, [0x40490FDB]. *)
Definition pi32 : Q := 13176795 # 4194304.

(** [torch.angle] of a real number: pi when negative, else zero. *)
Definition angle_real (x : Q) : Q := if Qle_bool 0 x then 0%Q else pi32.

(** Lines 177-178, on the real tensor the dataset yields. *)
Definition targets (vocals_spec : Tensor3) : Tensor3 * Tensor3 :=
  let target_mag := map3 Qabs vocals_spec in
  let target_phase := map3 angle_real vocals_spec in
  (target_mag, target_phase).

Record Checkpoint : Type := {
  ck_step : Z;
  ck_model_state_dict : Params B;
  ck_optimizer_state_dict : OptState B;
  ck_avg_loss : Q;
  ck_loss_log : list Q
}.

(** The files [train] writes. *)
Inductive FileName : Type :=
| checkpoint_step_pt (step : Z)
| loss_log_pt.

Inductive FileData : Type :=
| CheckpointData (ck : Checkpoint)
| LossLogData (loss_log : list Q).

Definition file_eqb (a b : FileName) : bool :=
  match a, b with
  | checkpoint_step_pt n, checkpoint_step_pt m => n =? m
  | loss_log_pt, loss_log_pt => true
  | _, _ => false
  end.

(** The working directory: the writes so far, the latest first. *)
Definition Files : Type := list (FileName * FileData).

Definition torch_save (data : FileData) (name : FileName) (fs : Files) : Files :=
  (name, data) :: fs.

Fixpoint torch_load (name : FileName) (fs : Files) : option FileData :=
  match fs with
  | [] => None
  | (n, d) :: fs' => if file_eqb name n then Some d else torch_load name fs'
  end.

(** The variables of [train]. *)
Record TrainState : Type := {
  step : Z;
  avg_loss : Q;
  loss_log : list Q;
  model : Params B;
  optimizer : OptState B;
  scaler : ScalerState B;
  scheduler_steps : Z
}.

(** Lines 154-169: a fresh start, or the state of a checkpoint. *)
Definition train_init (model0 : Params B) (optimizer0 : OptState B)
    (checkpoint : option Checkpoint) : TrainState :=
  match checkpoint with
  | None =>
      {| step := 0; avg_loss := 0; loss_log := [];
         model := model0; optimizer := optimizer0;
         scaler := new_scaler B; scheduler_steps := 0 |}
  | Some ck =>
      {| step := ck_step ck; avg_loss := ck_avg_loss ck;
         loss_log := ck_loss_log ck;
         model := ck_model_state_dict ck;
         optimizer := ck_optimizer_state_dict ck;
         scaler := new_scaler B; scheduler_steps := 0 |}
  end.

(** Lines 174-194: one batch of (mixture, vocals) spectrogram pairs. *)
Definition train_update (st : TrainState) (batch : list (Tensor3 * Tensor3))
  : TrainState :=
  let mixture_spec := map fst batch in
  let vocals_spec := map snd batch in
  let target_mag := map (fun v => fst (targets v)) vocals_spec in
  let target_phase := map (fun v => snd (targets v)) vocals_spec in
  let '(loss, model', optimizer', scaler') :=
    train_batch B (model st) (optimizer st) (scaler st) (scheduler_steps st)
                mixture_spec target_mag target_phase in
  {| step := step st + 1;
     avg_loss := (avg_loss st * inject_Z (step st) + loss)
                 / inject_Z (step st + 1);
     loss_log := loss_log st ++ [loss];
     model := model'; optimizer := optimizer'; scaler := scaler';
     scheduler_steps := scheduler_steps st + 1 |}.

Definition snapshot (st : TrainState) : Checkpoint :=
  {| ck_step := step st;
     ck_model_state_dict := model st;
     ck_optimizer_state_dict := optimizer st;
     ck_avg_loss := avg_loss st;
     ck_loss_log := loss_log st |}.

(** Lines 173-206: the loop body, with the checkpoint of line 198.  The
    division of line 192 is by [step + 1] and raises when that is zero, which
    a restored step of -1 makes it; [train_update] holds the quotient for
    every other step. *)
Definition train_iteration (checkpoint_steps : Z) (s : TrainState * Files)
    (batch : list (Tensor3 * Tensor3)) : Err (TrainState * Files) :=
  (if step (fst s) + 1 =? 0 then raise ZeroDivisionError
   else
     let st := train_update (fst s) batch in
     r <- pymod (step st) checkpoint_steps ;;
     if r =? 0 then
       ok (st, torch_save (CheckpointData (snapshot st))
                          (checkpoint_step_pt (step st)) (snd s))
     else ok (st, snd s))%err.

(** [train], lines 152-212.  [batches] is everything the data loader
    yields over all the epochs, in order. *)
Definition train (model0 : Params B) (optimizer0 : OptState B)
    (batches : list (list (Tensor3 * Tensor3))) (checkpoint_steps : Z)
    (checkpoint : option Checkpoint) (fs : Files) : Err (TrainState * Files) :=
  (s <- foldM (train_iteration checkpoint_steps) batches
              (train_init model0 optimizer0 checkpoint, fs) ;;
   ok (fst s, torch_save (LossLogData (loss_log (fst s))) loss_log_pt (snd s)))%err.

End WithBackend.

(** ** The loss *)

(** A batch of real spectrograms, shape (batch, channels, bins, frames). *)
Definition Tensor4 : Type := list Tensor3.

Definition flatten3 (t : Tensor3) : list Q := concat (map (@concat Q) t).
Definition flatten4 (t : Tensor4) : list Q := concat (map flatten3 t).

(** One axis of an elementwise operation under broadcasting: two lists of
    one length pair up, a list of one element is repeated along the other,
    and any other pair of lengths is a shape error. *)
Definition bzip {A B C} (f : A -> B -> Err C) (a : list A) (b : list B)
  : Err (list C) :=
  if (length a =? length b)%nat
  then mapM (fun p => f (fst p) (snd p)) (combine a b)
  else match a, b with
       | [x], _ => mapM (fun y => f x y) b
       | _, [y] => mapM (fun x => f x y) a
       | _, _ => raise (RuntimeError "shape mismatch")
       end.

(** [t - s] on two batches, broadcast axis by axis. *)
Definition tsub (t s : Tensor4) : Err Tensor4 :=
  bzip (bzip (bzip (bzip (fun x y => ok (x - y)%Q)))) t s.

(** [torch.mean(t)]: the mean over all entries.  With no entry torch
    returns NaN, which the rationals do not have; what is proved of a mean
    assumes an entry. *)
Definition tmean (t : Tensor4) : Q :=
  (Qsum (flatten4 t) / inject_Z (Z.of_nat (length (flatten4 t))))%Q.

(** [t ** 2], entry by entry. *)
Definition tsquare (t : Tensor4) : Tensor4 := map (map3 (fun d => d * d)%Q) t.

(** [loss_fn], lines 88-92. *)
Definition loss_fn (pred_mag pred_phase target_mag target_phase : Tensor4)
  : Err Q :=
  (d_mag <- tsub pred_mag target_mag ;;
   let mag_loss := tmean (tsquare d_mag) in
   d_phase <- tsub pred_phase target_phase ;;
   let phase_loss := tmean (tsquare d_phase) in
   let combined_loss := (mag_loss + phase_loss)%Q in
   ok combined_loss)%err.

(** ** The shapes inside the network *)

(** The shape (channels, height, width) of one sample; the batch axis is
    carried along unchanged by every layer and left out.  The layers are
    followed by shape only, with the shape rules of torch: which inputs a
    layer accepts and the shape it returns. *)
Definition Shape : Type := (Z * Z * Z)%type.

Record SimpleCNN : Type := {
  in_channels : Z;
  hidden_size : Z;
  num_layers : Z;
  dilation_rate : Z
}.

(** Line 32: [[dilation_rate ** i for i in range(num_layers - 2)]]. *)
Definition dilation_rates (net : SimpleCNN) : Err (list Z) :=
  (r <- py_range 0 (num_layers net - 2) 1 ;;
   ok (map (fun i => dilation_rate net ^ i) r))%err.

(** [nn.Conv2d(in_ch, out_ch, kernel_size=(k, k), padding=(pad, pad),
    dilation=(dil, dil))] with stride 1: both channel counts and the
    dilation must be positive and the padding must not be negative, the
    input must have [in_ch] channels, and each spatial size [n] becomes
    [n + 2 pad - dil (k - 1) - 1 + 1], which must be positive. *)
Definition conv2d_shape (in_ch out_ch k pad dil : Z) (s : Shape) : Err Shape :=
  let '(c, h, w) := s in
  if (in_ch <=? 0) || (out_ch <=? 0) then raise (RuntimeError "no channels")
  else if (pad <? 0) || (dil <=? 0) then raise (RuntimeError "bad padding or dilation")
  else if negb (c =? in_ch) then raise (RuntimeError "channel mismatch")
  else
    let h' := h + 2 * pad - dil * (k - 1) - 1 + 1 in
    let w' := w + 2 * pad - dil * (k - 1) - 1 + 1 in
    if (h' <=? 0) || (w' <=? 0) then raise (RuntimeError "output size is too small")
    else ok (out_ch, h', w').

(** [nn.BatchNorm2d(features)] followed by [F.relu]. *)
Definition bn_relu_shape (features : Z) (s : Shape) : Err Shape :=
  let '(c, h, w) := s in
  if negb (c =? features) then raise (RuntimeError "channel mismatch")
  else ok s.

(** [nn.Linear(in_features, out_features)] on a vector of [n] features. *)
Definition linear_shape (in_features out_features n : Z) : Err Z :=
  if negb (n =? in_features) then raise (RuntimeError "shape mismatch")
  else ok out_features.

(** Two sizes of one axis under broadcasting. *)
Definition broadcast_dim (a b : Z) : Err Z :=
  if a =? b then ok a
  else if a =? 1 then ok b
  else if b =? 1 then ok a
  else raise (RuntimeError "shape mismatch").

Definition broadcast_shape (x y : Shape) : Err Shape :=
  let '(c, h, w) := x in
  let '(c', h', w') := y in
  (c <- broadcast_dim c c' ;; h <- broadcast_dim h h' ;;
   w <- broadcast_dim w w' ;; ok (c, h, w))%err.

(** [SqueezeExcitation(channels)], lines 68-86: pooling to (c, 1, 1),
    flattening to [c] features, the two linear layers
    [channels -> channels // 16 -> channels], and the product of the input
    with the scale reshaped to (features, 1, 1). *)
Definition squeeze_excitation_shape (channels : Z) (x : Shape) : Err Shape :=
  let '(c, h, w) := x in
  (let scale := c in
   scale <- linear_shape channels (channels / 16) scale ;;
   scale <- linear_shape (channels / 16) channels scale ;;
   broadcast_shape x (scale, 1, 1))%err.

(** [x + residual]. *)
Definition add_shape (x r : Shape) : Err Shape := broadcast_shape x r.

(** One pass of the loop of lines 55-59, for the block of dilation [d]. *)
Definition block_shape (net : SimpleCNN) (x : Shape) (d : Z) : Err Shape :=
  (let residual := x in
   x <- conv2d_shape (hidden_size net) (hidden_size net) 3 d d x ;;
   x <- bn_relu_shape (hidden_size net) x ;;
   x <- squeeze_excitation_shape (hidden_size net) x ;;
   add_shape x residual)%err.

(** [SimpleCNN.forward], lines 50-65, on shapes: the shapes of the
    magnitude and of the phase it returns. *)
Definition forward_shape (net : SimpleCNN) (x : Shape) : Err (Shape * Shape) :=
  (x <- conv2d_shape (in_channels net) (hidden_size net) 3 1 1 x ;;
   x <- bn_relu_shape (hidden_size net) x ;;
   rates <- dilation_rates net ;;
   x <- foldM (block_shape net) rates x ;;
   mag <- conv2d_shape (hidden_size net) (in_channels net) 3 1 1 x ;;
   phase <- conv2d_shape (hidden_size net) (in_channels net) 3 1 1 x ;;
   ok (mag, phase))%err.

(** ** The command line *)

Record Args : Type := {
  arg_train : bool;
  arg_infer : bool;
  arg_data_dir : string;
  arg_epochs : Z;
  arg_batch_size : Z;
  arg_checkpoint_steps : Z;
  arg_checkpoint_path : option string;
  arg_input_wav : option string;
  arg_output_instrumental : string;
  arg_segment_length : Z;
  arg_num_layers : Z;
  arg_n_fft : Z;
  arg_hop_length : Z
}.

(** What [main] does after it has built the model and the optimizer. *)
Inductive Action : Type :=
| CallTrain (data_dir : string)
            (segment_length n_fft hop_length batch_size epochs checkpoint_steps : Z)
            (checkpoint_path : option string)
| CallInference (num_layers : Z) (checkpoint_path : option string)
                (input_wav output_instrumental : string) (n_fft hop_length : Z)
| PrintMessage (msg : string).

(** Lines 325-346. *)
Definition main (args : Args) : list Action :=
  if arg_train args then
    [CallTrain (arg_data_dir args) (arg_segment_length args) (arg_n_fft args)
               (arg_hop_length args) (arg_batch_size args) (arg_epochs args)
               (arg_checkpoint_steps args) (arg_checkpoint_path args)]
  else if arg_infer args then
    match arg_input_wav args with
    | None => [PrintMessage "Please specify an input WAV file for inference using --input_wav"]
    | Some input_wav =>
        [CallInference (arg_num_layers args) (arg_checkpoint_path args) input_wav
                       (arg_output_instrumental args) (arg_n_fft args)
                       (arg_hop_length args)]
    end
  else [PrintMessage "Please specify either --train or --infer"].

Definition runs_train (a : Action) : bool :=
  match a with CallTrain _ _ _ _ _ _ _ _ => true | _ => false end.

Definition runs_infer (a : Action) : bool :=
  match a with CallInference _ _ _ _ _ _ => true | _ => false end.

Definition modes_run (l : list Action) : nat :=
  length (filter (fun a => runs_train a || runs_infer a) l).

(** ** A small backend for running the definitions *)

Module Toy.

(** Square root on rationals, exact on the squares of rationals and
    rounded down on the numerator otherwise. *)
Definition sqrt_floor (x : Q) : Q :=
  Z.sqrt (Qnum x * Zpos (Qden x)) # Qden x.

(** Exact on the real axis, which is all [stft1] below produces. *)
Definition atan2_axis (im re : Q) : Q := if Qle_bool 0 re then 0%Q else pi32.
Definition cos_axis (p : Q) : Q := if Qeq_bool p 0 then 1%Q else (-1)%Q.
Definition sin_axis (p : Q) : Q := 0%Q.

(** One frequency bin and one frame per sample: the bin of a sample is
    the sample itself. *)
Definition stft1 (n_fft hop_length : Z) (w : Tensor2) : CTensor3 :=
  map (fun r => [map (fun x => (x, 0%Q)) r]) w.

(** [l] cut or zero-padded to [n] elements. *)
Definition fit (n : nat) (l : list Q) : list Q :=
  firstn n (l ++ repeat 0%Q n).

Definition istft1 (n_fft hop_length : Z) (s : CTensor3) (length : Z) : Tensor2 :=
  map (fun c => fit (Z.to_nat length) (map fst (hd [] c))) s.

(** The parameters are one gain [g]: the predicted magnitude is [g] times
    the input and the predicted phase is zero. *)
Definition gain_forward (g : Q) (x : Tensor3) : Tensor3 * Tensor3 :=
  (map3 (Qmult g) x, map3 (fun _ => 0%Q) x).

Definition gain_train_batch (g : Q) (o s : unit) (sched : Z)
    (mixture target_mag target_phase : list Tensor3) : Q * Q * unit * unit :=
  (Qred (g * g), Qred (g / 2), tt, tt).

Definition backend : Backend :=
  {| Params := Q; OptState := unit; ScalerState := unit;
     sqrtQ := sqrt_floor; atan2Q := atan2_axis;
     cosQ := cos_axis; sinQ := sin_axis;
     stft := stft1; istft := istft1;
     forward := gain_forward;
     load_state_dict := fun _ s => s;
     new_scaler := tt;
     train_batch := gain_train_batch |}.

(** A waveform of two channels whose samples are [f c k]. *)
Definition wave (f : nat -> nat -> Q) (samples : nat) : Tensor2 :=
  map (fun c => map (f c) (seq 0 samples)) [0%nat; 1%nat].

(** Sample [k] of channel [c] is [(k + 1 + 100 c) / 200]. *)
Definition ramp (samples : nat) : Tensor2 :=
  wave (fun c k => inject_Z (Z.of_nat (k + 1 + 100 * c)) / 200)%Q samples.

(** A magnitude tensor: 1, 2, 3 in both channels. *)
Definition steps3 : Tensor3 := [[[1; 2; 3]]; [[1; 2; 3]]]%Q.


(** Requested segments of 4 frames. *)
Definition dataset : MUSDBDataset :=
  {| segment_length := 8; n_fft := 1; hop_length := 2; segment := true |}.

Definition mono : Tensor2 := [[1; 2; 3; 4]]%Q.

Definition args (train infer : bool) : Args :=
  {| arg_train := train; arg_infer := infer; arg_data_dir := "train";
     arg_epochs := 10000; arg_batch_size := 1; arg_checkpoint_steps := 100;
     arg_checkpoint_path := None; arg_input_wav := Some "song.wav"%string;
     arg_output_instrumental := "output_instrumental.wav";
     arg_segment_length := 352800; arg_num_layers := 8;
     arg_n_fft := 4096; arg_hop_length := 1024 |}.

(** [ramp 14] with other values in its last two samples. *)
Definition ramp_other_tail : Tensor2 :=
  map (fun r => firstn 12 r ++ [9; 9]%Q) (ramp 14).

(** The forward pass of [gain_forward] with another predicted phase. *)
Definition other_phase (g : Q) (x : Tensor3) : Tensor3 * Tensor3 :=
  (fst (gain_forward g x), map3 (fun _ => 1%Q) x).

(** A spectrogram of two channels, one bin, six frames. *)
Definition frames6 : Tensor3 :=
  [[[1; 2; 3; 4; 5; 6]]; [[7; 8; 9; 10; 11; 12]]]%Q.

(** The same dataset without segmenting. *)
Definition dataset_whole : MUSDBDataset :=
  {| segment_length := 8; n_fft := 1; hop_length := 2; segment := false |}.

(** The network [main] builds by default. *)
Definition net : SimpleCNN :=
  {| in_channels := 2; hidden_size := 512; num_layers := 8; dilation_rate := 2 |}.

(** A checkpoint taken at step [n] with the loss history [log]. *)
Definition checkpoint (n : Z) (log : list Q) : Checkpoint backend :=
  Build_Checkpoint backend n 1%Q tt 1%Q log.

(** A batch of one sample with two channels, one bin, two frames. *)
Definition batch1 (a b : Q) : Tensor4 := [[[[a; b]]; [[b; a]]]].

End Toy.

(** ** Auxiliary definitions for the proofs *)

(** What a slice update returns when the slice lies inside the list. *)
Definition zipw (op : Q -> Q -> Q) (x y : list Q) : list Q :=
  map (fun p => op (fst p) (snd p)) (combine x y).

Definition splice (lo : nat) (mid l : list Q) : list Q :=
  firstn lo l ++ mid ++ skipn (lo + length mid) l.

Definition upd (op : Q -> Q -> Q) (lo n : nat) (vals l : list Q) : list Q :=
  splice lo (zipw op (firstn n (skipn lo l)) vals) l.

Definition map2 {A B C} (g : A -> B -> C) (t : list A) (s : list B) : list C :=
  map (fun p => g (fst p) (snd p)) (combine t s).

(** The row [r] of the output buffer after the row [q] of the chunk that
    starts at [i] went into it, cross-faded or not. *)
Definition oa_row (i chunk_size cfl : nat) (fade_in fade_out : list Q)
    (crossfade : bool) (r q : list Q) : list Q :=
  let q' := if crossfade then upd Qmult 0 cfl fade_in q else q in
  let r' := if crossfade
            then upd Qplus i cfl (firstn cfl q') (upd Qmult i cfl fade_out r)
            else r in
  upd (fun _ v => v) (i + cfl) (chunk_size - cfl) (skipn cfl q') r'.

(** Sample [p] of channel [c]. *)
Definition sample (t : Tensor2) (c p : nat) : Q := nth p (nth c t []) 0%Q.

(** The chunk starts the loop of [inference] visits. *)
Definition chunk_starts (total_length chunk_size overlap : Z) : list Z :=
  match py_range 0 (total_length - chunk_size + 1) (chunk_size - overlap) with
  | inr starts => starts
  | inl _ => []
  end.

(** The events of one chunk. *)
Definition chunk_events : list Event := [EvStft; EvForward; EvIstft].

(** The reconstruction of the chunk of [input_audio] that starts at [i]:
    what [separate_chunk] returns for it. *)
Definition reconstructed (B : Backend) (params : Params B)
    (n_fft hop_length chunk_size : Z) (input_audio : Tensor2) (i : Z) : Tensor2 :=
  match outcome (separate_chunk B params n_fft hop_length chunk_size
                   (map (fun r => py_slice r i (Some (i + chunk_size))) input_audio)) with
  | inr t => t
  | inl _ => []
  end.

(** The output buffer after the chunks that start at [starts], in order. *)
Definition buffer_after (B : Backend) (params : Params B)
    (n_fft hop_length chunk_size cfl : Z) (fade_in fade_out : list Q)
    (input_audio : Tensor2) (starts : list Z) (buf : Tensor2) : Tensor2 :=
  fold_left (fun buf i =>
               map2 (oa_row (Z.to_nat i) (Z.to_nat chunk_size) (Z.to_nat cfl)
                            fade_in fade_out (0 <? i))
                    buf (reconstructed B params n_fft hop_length chunk_size
                                       input_audio i))
            starts buf.





(** The state of [train] after the first [n] batches of a run that
    starts in [st]. *)
Definition state_after (B : Backend) (st : TrainState B)
    (batches : list (list (Tensor3 * Tensor3))) (n : nat) : TrainState B :=
  fold_left (train_update B) (firstn n batches) st.

(** The checkpoints a run over [batches] writes, the latest first. *)
Fixpoint checkpoints_written (B : Backend) (checkpoint_steps : Z)
    (st : TrainState B) (batches : list (list (Tensor3 * Tensor3)))
  : Files B :=
  match batches with
  | [] => []
  | b :: rest =>
      let st' := train_update B st b in
      checkpoints_written B checkpoint_steps st' rest
      ++ (if step B st' mod checkpoint_steps =? 0
          then [(checkpoint_step_pt (step B st'),
                 CheckpointData B (snapshot B st'))]
          else [])
  end.

(** A complex spectrogram with every bin on the positive imaginary axis
    (phase pi/2, magnitudes 1, 2, 3), and one with the same magnitudes on
    the positive real axis (phase 0). *)
Definition spec_imaginary : CTensor3 :=
  [[[(0, 1); (0, 2); (0, 3)]]; [[(0, 1); (0, 2); (0, 3)]]]%Q.
Definition spec_real : CTensor3 :=
  [[[(1, 0); (2, 0); (3, 0)]]; [[(1, 0); (2, 0); (3, 0)]]]%Q.

(** Every row of every channel of a spectrogram has [n] frames. *)
Definition rect3 {A} (n : nat) (t : list (list (list A))) : Prop :=
  Forall (Forall (fun r => length r = n)) t.

(** Frame [k] of bin [f] of channel [c]. *)
Definition entry (t : Tensor3) (c f k : nat) : Q :=
  nth k (nth f (nth c t []) []) 0%Q.

(** The backend [B] with another forward pass. *)
Definition with_forward (B : Backend)
    (f : Params B -> Tensor3 -> Tensor3 * Tensor3) : Backend :=
  {| Params := Params B; OptState := OptState B; ScalerState := ScalerState B;
     sqrtQ := sqrtQ B; atan2Q := atan2Q B; cosQ := cosQ B; sinQ := sinQ B;
     stft := stft B; istft := istft B;
     forward := f;
     load_state_dict := load_state_dict B;
     new_scaler := new_scaler B;
     train_batch := train_batch B |}.

(** The event of saving the output. *)
Definition is_save (e : Event) : bool :=
  match e with
  | EvSaveAudio _ _ _ => true
  | _ => false
  end.

(** * Proofs *)

(** ** The monads *)

Lemma ebind_ok {A B} (a : A) (k : A -> Err B) : ebind (ok a) k = k a.
Proof. reflexivity. Qed.

Lemma rbind_ok {A B} log (a : A) (k : A -> Run B) :
  rbind (log, ok a) k = (log ++ fst (k a), snd (k a)).
Proof. unfold rbind, ok. destruct (k a). reflexivity. Qed.

Lemma mapM_ok {A B} (f : A -> Err B) (g : A -> B) (l : list A) :
  (forall x, In x l -> f x = ok (g x)) -> mapM f l = ok (map g l).
Proof.
  induction l as [|a l IH]; intros H; simpl; [reflexivity|].
  rewrite (H a (or_introl eq_refl)). simpl.
  rewrite IH by (intros x Hx; apply H; right; exact Hx).
  reflexivity.
Qed.

Lemma rows2_ok f (g : list Q -> list Q -> list Q) (t s : Tensor2) :
  length t = length s ->
  (forall r q, In (r, q) (combine t s) -> f r q = ok (g r q)) ->
  rows2 f t s = ok (map2 g t s).
Proof.
  revert s. induction t as [|r t IH]; intros [|q s] Hlen H; simpl in *;
    try discriminate; [reflexivity|].
  rewrite (H r q (or_introl eq_refl)). simpl.
  rewrite (IH s) by (try lia; intros r0 q0 Hin; apply H; right; exact Hin).
  reflexivity.
Qed.

Lemma length_map2 {A B C} (g : A -> B -> C) t s :
  length t = length s -> length (map2 g t s) = length t.
Proof.
  intros H. unfold map2. rewrite length_map, length_combine. lia.
Qed.

Lemma combine_nth_lt {A B} (t : list A) (s : list B) c da db :
  (c < length t)%nat -> (c < length s)%nat ->
  nth c (combine t s) (da, db) = (nth c t da, nth c s db).
Proof.
  revert s c. induction t as [|a t IH]; intros [|b s] [|c] Ht Hs; simpl in *;
    try lia; [reflexivity|].
  apply IH; lia.
Qed.

Lemma nth_map2 {A B C} (g : A -> B -> C) t s c da db dc :
  (c < length t)%nat -> (c < length s)%nat ->
  nth c (map2 g t s) dc = g (nth c t da) (nth c s db).
Proof.
  intros Ht Hs. unfold map2.
  rewrite (nth_indep _ dc (g da db))
    by (rewrite length_map, length_combine; lia).
  change (g da db) with ((fun p => g (fst p) (snd p)) (da, db)).
  rewrite map_nth. rewrite combine_nth_lt by assumption. reflexivity.
Qed.

Lemma nth_map_lt {A B} (g : A -> B) l c da db :
  (c < length l)%nat -> nth c (map g l) db = g (nth c l da).
Proof.
  intros H. rewrite (nth_indep _ db (g da)) by (rewrite length_map; lia).
  apply map_nth.
Qed.

Lemma In_combine_rect {A} n m (t s : list (list A)) r q :
  rect n t -> rect m s -> In (r, q) (combine t s) ->
  length r = n /\ length q = m.
Proof.
  intros Ht Hs Hin. unfold rect in *. rewrite Forall_forall in Ht, Hs. split.
  - apply Ht. eapply in_combine_l; eauto.
  - apply Hs. eapply in_combine_r; eauto.
Qed.

Lemma rect_nth {A} n (t : list (list A)) c :
  rect n t -> (c < length t)%nat -> length (nth c t []) = n.
Proof.
  intros H Hc. unfold rect in H. rewrite Forall_forall in H.
  apply H. apply nth_In. exact Hc.
Qed.

(** ** Slices inside the list *)

Lemma norm_index_in n a : 0 <= a <= n -> norm_index n a = a.
Proof.
  intros H. unfold norm_index.
  destruct (a <? 0) eqn:E; [apply Z.ltb_lt in E; lia | lia].
Qed.

Lemma slice_bounds_in {A} (l : list A) a n :
  0 <= a -> 0 <= n -> a + n <= Z.of_nat (length l) ->
  slice_bounds l a (Some (a + n)) = (Z.to_nat a, Z.to_nat n).
Proof.
  intros Ha Hn H. unfold slice_bounds.
  rewrite !norm_index_in by lia. f_equal. f_equal. lia.
Qed.

Lemma py_slice_in {A} (l : list A) a n :
  0 <= a -> 0 <= n -> a + n <= Z.of_nat (length l) ->
  py_slice l a (Some (a + n)) = firstn (Z.to_nat n) (skipn (Z.to_nat a) l).
Proof.
  intros Ha Hn H. unfold py_slice. rewrite slice_bounds_in by assumption.
  reflexivity.
Qed.

Lemma py_slice_prefix {A} (l : list A) n :
  0 <= n <= Z.of_nat (length l) ->
  py_slice l 0 (Some n) = firstn (Z.to_nat n) l.
Proof.
  intros H. replace n with (0 + n) at 1 by lia.
  rewrite py_slice_in by lia. reflexivity.
Qed.

Lemma py_slice_suffix {A} (l : list A) a :
  0 <= a <= Z.of_nat (length l) ->
  py_slice l a None = skipn (Z.to_nat a) l.
Proof.
  intros H. unfold py_slice, slice_bounds. rewrite norm_index_in by lia.
  apply firstn_all2. rewrite length_skipn. lia.
Qed.

Lemma length_zipw op x y :
  length x = length y -> length (zipw op x y) = length x.
Proof.
  intros H. unfold zipw. rewrite length_map, length_combine. lia.
Qed.

Lemma nth_zipw op x y k :
  (k < length x)%nat -> (k < length y)%nat ->
  nth k (zipw op x y) 0%Q = op (nth k x 0%Q) (nth k y 0%Q).
Proof.
  intros Hx Hy. exact (nth_map2 op x y k 0%Q 0%Q 0%Q Hx Hy).
Qed.

Lemma length_splice lo mid l :
  (lo + length mid <= length l)%nat -> length (splice lo mid l) = length l.
Proof.
  intros H. unfold splice.
  rewrite !length_app, length_firstn, length_skipn. lia.
Qed.

Lemma nth_splice lo mid l p :
  (lo + length mid <= length l)%nat ->
  nth p (splice lo mid l) 0%Q =
  if (p <? lo)%nat then nth p l 0%Q
  else if (p <? lo + length mid)%nat then nth (p - lo) mid 0%Q
  else nth p l 0%Q.
Proof.
  intros H. unfold splice.
  assert (Hf : length (firstn lo l) = lo) by (rewrite length_firstn; lia).
  destruct (p <? lo)%nat eqn:E1.
  - rewrite app_nth1 by (apply Nat.ltb_lt in E1; lia).
    rewrite nth_firstn, E1. reflexivity.
  - apply Nat.ltb_ge in E1. rewrite app_nth2 by lia. rewrite Hf.
    destruct (p <? lo + length mid)%nat eqn:E2.
    + apply Nat.ltb_lt in E2. rewrite app_nth1 by lia. reflexivity.
    + apply Nat.ltb_ge in E2. rewrite app_nth2 by lia.
      rewrite nth_skipn. f_equal. lia.
Qed.

Lemma slice_update_in op l a n vals :
  0 <= a -> 0 <= n -> a + n <= Z.of_nat (length l) ->
  length vals = Z.to_nat n ->
  slice_update op l a (Some (a + n)) vals
  = ok (upd op (Z.to_nat a) (Z.to_nat n) vals l).
Proof.
  intros Ha Hn H Hv. unfold slice_update.
  rewrite slice_bounds_in by assumption.
  assert (Hmid : length (firstn (Z.to_nat n) (skipn (Z.to_nat a) l)) = Z.to_nat n)
    by (rewrite length_firstn, length_skipn; lia).
  rewrite Hmid. unfold broadcast_to.
  rewrite (proj2 (Nat.eqb_eq _ _) Hv). simpl.
  unfold upd, splice. fold (zipw op (firstn (Z.to_nat n) (skipn (Z.to_nat a) l)) vals).
  rewrite length_zipw by lia. rewrite Hmid. reflexivity.
Qed.

Lemma length_upd op lo n vals l :
  (lo + n <= length l)%nat -> length vals = n ->
  length (upd op lo n vals l) = length l.
Proof.
  intros H Hv. unfold upd. apply length_splice.
  rewrite length_zipw; rewrite length_firstn, length_skipn; lia.
Qed.

Lemma nth_upd op lo n vals l p :
  (lo + n <= length l)%nat -> length vals = n ->
  nth p (upd op lo n vals l) 0%Q =
  if ((lo <=? p) && (p <? lo + n))%nat
  then op (nth p l 0%Q) (nth (p - lo) vals 0%Q)
  else nth p l 0%Q.
Proof.
  intros H Hv. unfold upd.
  assert (Hz : length (zipw op (firstn n (skipn lo l)) vals) = n)
    by (rewrite length_zipw; rewrite length_firstn, length_skipn; lia).
  rewrite nth_splice by lia. rewrite Hz.
  destruct (p <? lo)%nat eqn:E1.
  - apply Nat.ltb_lt in E1.
    rewrite (proj2 (Nat.leb_gt lo p)) by lia. reflexivity.
  - apply Nat.ltb_ge in E1.
    rewrite (proj2 (Nat.leb_le lo p)) by lia. simpl.
    destruct (p <? lo + n)%nat eqn:E2; [|reflexivity].
    apply Nat.ltb_lt in E2.
    rewrite nth_zipw by (rewrite ?length_firstn, ?length_skipn; lia).
    rewrite nth_firstn, (proj2 (Nat.ltb_lt (p - lo) n)) by lia.
    rewrite nth_skipn. do 2 f_equal. lia.
Qed.

(** ** The fade ramps *)

Lemma linspace_ok a b n :
  0 <= n -> exists l, linspace a b n = ok l /\ length l = Z.to_nat n.
Proof.
  intros Hn. unfold linspace.
  rewrite (proj2 (Z.ltb_ge n 0)) by lia.
  destruct (n =? 1) eqn:E.
  - apply Z.eqb_eq in E. subst n. exists [a]. split; reflexivity.
  - eexists. split; [reflexivity|]. rewrite length_map, length_seq. reflexivity.
Qed.

Lemma nth_linspace a b n l k :
  linspace a b n = ok l -> n <> 1 -> (k < Z.to_nat n)%nat ->
  nth k l 0%Q
  = (a + inject_Z (Z.of_nat k) * ((b - a) / inject_Z (n - 1)))%Q.
Proof.
  unfold linspace. intros H Hn Hk.
  destruct (n <? 0); [discriminate|].
  rewrite (proj2 (Z.eqb_neq n 1)) in H by assumption.
  injection H as <-.
  rewrite (nth_map_lt _ _ _ 0%nat) by (rewrite length_seq; lia).
  rewrite seq_nth by lia. reflexivity.
Qed.

Lemma unit_fraction k d :
  0 <= k <= d -> 0 < d ->
  (0 <= inject_Z k / inject_Z d /\ inject_Z k / inject_Z d <= 1)%Q.
Proof.
  intros Hk Hd.
  assert (Hq : (0 < inject_Z d)%Q)
    by (change 0%Q with (inject_Z 0); rewrite <- Zlt_Qlt; exact Hd).
  split.
  - apply Qle_shift_div_l; [exact Hq|]. rewrite Qmult_0_l.
    change 0%Q with (inject_Z 0). rewrite <- Zle_Qle. lia.
  - apply Qle_shift_div_r; [exact Hq|]. rewrite Qmult_1_l.
    rewrite <- Zle_Qle. lia.
Qed.

(** The two ramps of the cross-fade at position [k]: weights of [0, 1]
    that add up to one. *)
Lemma fade_weights n fade_in fade_out k :
  linspace 0 1 n = ok fade_in -> linspace 1 0 n = ok fade_out ->
  (k < Z.to_nat n)%nat ->
  (nth k fade_in 0 + nth k fade_out 0 == 1
   /\ 0 <= nth k fade_in 0 <= 1 /\ 0 <= nth k fade_out 0 <= 1)%Q.
Proof.
  intros Hin Hout Hk.
  destruct (Z.eq_dec n 1) as [->|Hn].
  - injection Hin as <-. injection Hout as <-.
    assert (k = 0%nat) as -> by (simpl in Hk; lia). simpl.
    repeat split; try reflexivity; discriminate.
  - rewrite (nth_linspace _ _ _ _ _ Hin Hn Hk).
    rewrite (nth_linspace _ _ _ _ _ Hout Hn Hk).
    assert (Hd : 0 < n - 1) by lia.
    destruct (unit_fraction (Z.of_nat k) (n - 1)) as [H0 H1]; [lia | lia |].
    assert (Hnz : ~ (inject_Z (n - 1) == 0)%Q).
    { change 0%Q with (inject_Z 0). rewrite inject_Z_injective. lia. }
    set (d := inject_Z (n - 1)) in *. set (x := inject_Z (Z.of_nat k)) in *.
    assert (Ei : (0 + x * ((1 - 0) / d) == x / d)%Q) by (field; exact Hnz).
    assert (Eo : (1 + x * ((0 - 1) / d) == 1 - x / d)%Q) by (field; exact Hnz).
    rewrite Ei, Eo. repeat split.
    + ring.
    + exact H0.
    + exact H1.
    + lra.
    + lra.
Qed.

(** ** Overlap-add of one chunk *)

Ltac cmp_nat :=
  repeat match goal with
         | |- context [(?a <? ?b)%nat] => destruct (Nat.ltb_spec a b)
         | |- context [(?a <=? ?b)%nat] => destruct (Nat.leb_spec a b)
         end;
  simpl; try lia.

Lemma rect_map {A} n m (g : list A -> list A) t :
  (forall r, length r = n -> length (g r) = m) -> rect n t -> rect m (map g t).
Proof.
  intros Hg Ht. unfold rect in *. rewrite Forall_forall in *.
  intros r Hr. apply in_map_iff in Hr as (r0 & <- & Hin). auto.
Qed.

Lemma rect_map2 {A} n m k (g : list A -> list A -> list A) t s :
  (forall r q, length r = n -> length q = m -> length (g r q) = k) ->
  rect n t -> rect m s -> rect k (map2 g t s).
Proof.
  intros Hg Ht Hs. unfold rect. rewrite Forall_forall.
  intros r Hr. apply in_map_iff in Hr as ([r0 q0] & <- & Hin).
  destruct (In_combine_rect _ _ _ _ _ _ Ht Hs Hin). simpl. auto.
Qed.

Lemma map2_fuse {A} (g1 g2 : A -> A) (g3 g4 : A -> A -> A) t s :
  map2 g4 (map2 g3 (map g2 t) (map g1 s)) (map g1 s)
  = map2 (fun r q => g4 (g3 (g2 r) (g1 q)) (g1 q)) t s.
Proof.
  revert s. induction t as [|r t IH]; intros [|q s]; try reflexivity.
  unfold map2 in *. simpl. f_equal. apply IH.
Qed.

Lemma length_oa_row i C cfl fi fo xf r q T :
  (i + C <= T)%nat -> (cfl <= C)%nat ->
  length fi = cfl -> length fo = cfl -> length r = T -> length q = C ->
  length (oa_row i C cfl fi fo xf r q) = T.
Proof.
  intros HT Hc Hfi Hfo Hr Hq. unfold oa_row.
  destruct xf;
    repeat (rewrite ?length_upd, ?length_firstn, ?length_skipn; try lia).
Qed.

Lemma nth_oa_row i C cfl fi fo xf r q T p :
  (i + C <= T)%nat -> (cfl <= C)%nat ->
  length fi = cfl -> length fo = cfl -> length r = T -> length q = C ->
  nth p (oa_row i C cfl fi fo xf r q) 0%Q =
  if (p <? i)%nat then nth p r 0%Q
  else if (p <? i + cfl)%nat then
         if xf then (nth p r 0 * nth (p - i) fo 0
                     + nth (p - i) q 0 * nth (p - i) fi 0)%Q
         else nth p r 0%Q
  else if (p <? i + C)%nat then nth (p - i) q 0%Q
  else nth p r 0%Q.
Proof.
  intros HT Hc Hfi Hfo Hr Hq. unfold oa_row.
  destruct xf.
  - assert (Hq' : length (upd Qmult 0 cfl fi q) = C)
      by (rewrite length_upd; lia).
    assert (Hr1 : length (upd Qmult i cfl fo r) = T)
      by (rewrite length_upd; lia).
    assert (Hr2 : length (upd Qplus i cfl (firstn cfl (upd Qmult 0 cfl fi q))
                              (upd Qmult i cfl fo r)) = T)
      by (rewrite length_upd; rewrite ?length_firstn; lia).
    rewrite nth_upd by (rewrite ?length_skipn; lia).
    rewrite nth_skipn.
    rewrite (nth_upd Qplus) by (rewrite ?length_firstn; lia).
    rewrite nth_firstn.
    rewrite !(nth_upd Qmult) by lia.
    cmp_nat; rewrite ?Nat.sub_0_r; try reflexivity; f_equal; lia.
  - rewrite nth_upd by (rewrite ?length_skipn; lia).
    rewrite nth_skipn.
    cmp_nat; try reflexivity; f_equal; lia.
Qed.

Lemma overlap_add_ok i C cfl T fi fo (buf chunk : Tensor2) :
  0 <= i -> 0 <= cfl <= C -> i + C <= Z.of_nat T ->
  rect T buf -> rect (Z.to_nat C) chunk -> length buf = length chunk ->
  linspace 0 1 cfl = ok fi -> linspace 1 0 cfl = ok fo ->
  overlap_add i C cfl buf chunk
  = ok (map2 (oa_row (Z.to_nat i) (Z.to_nat C) (Z.to_nat cfl) fi fo (0 <? i))
             buf chunk).
Proof.
  intros Hi Hc HT Hb Hch Hlen Hfi Hfo.
  destruct (linspace_ok 0 1 cfl) as (fi' & Efi & Lfi); [lia|].
  destruct (linspace_ok 1 0 cfl) as (fo' & Efo & Lfo); [lia|].
  assert (fi' = fi) as -> by (unfold ok in *; congruence).
  assert (fo' = fo) as -> by (unfold ok in *; congruence).
  assert (Hassign : forall (t s : Tensor2),
    rect T t -> rect (Z.to_nat C) s -> length t = length s ->
    rows2 (fun r q => slice_assign r (i + cfl) (Some (i + C)) (py_slice q cfl None)) t s
    = ok (map2 (fun r q => upd (fun _ v => v) (Z.to_nat i + Z.to_nat cfl)
                               (Z.to_nat C - Z.to_nat cfl)
                               (skipn (Z.to_nat cfl) q) r) t s)).
  { intros t s Ht Hs Hl. apply rows2_ok; [exact Hl|].
    intros r q Hin. destruct (In_combine_rect _ _ _ _ _ _ Ht Hs Hin) as [Lr Lq].
    rewrite py_slice_suffix by lia. unfold slice_assign.
    replace (i + C) with ((i + cfl) + (C - cfl)) by lia.
    rewrite slice_update_in by (rewrite ?length_skipn; lia).
    do 2 f_equal; lia. }
  unfold overlap_add. destruct (0 <? i) eqn:Ei.
  - rewrite Hfi, Hfo. rewrite ?ebind_ok.
    rewrite (mapM_ok _ (upd Qmult 0 (Z.to_nat cfl) fi)).
    2:{ intros q Hq. unfold rect in Hch. rewrite Forall_forall in Hch.
        specialize (Hch q Hq). unfold slice_imul.
        change (Some cfl) with (Some (0 + cfl)).
        rewrite slice_update_in by lia. reflexivity. }
    rewrite ?ebind_ok.
    rewrite (mapM_ok _ (upd Qmult (Z.to_nat i) (Z.to_nat cfl) fo)).
    2:{ intros r Hr. unfold rect in Hb. rewrite Forall_forall in Hb.
        specialize (Hb r Hr). unfold slice_imul.
        rewrite slice_update_in by lia. reflexivity. }
    rewrite ?ebind_ok.
    assert (Hch' : rect (Z.to_nat C) (map (upd Qmult 0 (Z.to_nat cfl) fi) chunk)).
    { eapply rect_map; [|exact Hch]. intros r Lr. rewrite length_upd; lia. }
    assert (Hb' : rect T (map (upd Qmult (Z.to_nat i) (Z.to_nat cfl) fo) buf)).
    { eapply rect_map; [|exact Hb]. intros r Lr. rewrite length_upd; lia. }
    rewrite (rows2_ok _ (fun r q => upd Qplus (Z.to_nat i) (Z.to_nat cfl)
                                        (firstn (Z.to_nat cfl) q) r)).
    2:{ rewrite !length_map. exact Hlen. }
    2:{ intros r q Hin.
        destruct (In_combine_rect _ _ _ _ _ _ Hb' Hch' Hin) as [Lr Lq].
        rewrite py_slice_prefix by lia. unfold slice_iadd.
        rewrite slice_update_in by (rewrite ?length_firstn; lia). reflexivity. }
    rewrite ?ebind_ok; cbn [fst snd].
    rewrite Hassign.
    + rewrite map2_fuse. reflexivity.
    + eapply rect_map2; [|exact Hb'|exact Hch'].
      intros r q Lr Lq. rewrite length_upd; rewrite ?length_firstn; lia.
    + exact Hch'.
    + rewrite length_map2; rewrite !length_map; congruence.
  - rewrite ?ebind_ok; cbn [fst snd]. rewrite Hassign by assumption. reflexivity.
Qed.

(** ** The chunk schedule *)

Lemma py_range_forward stop step :
  0 < step ->
  py_range 0 stop step
  = ok (map (fun k => Z.of_nat k * step)
            (seq 0 (Z.to_nat (range_len 0 stop step)))).
Proof.
  intros H. unfold py_range.
  rewrite (proj2 (Z.eqb_neq step 0)) by lia. reflexivity.
Qed.

Lemma range_len_chunks T C ov :
  ov < C -> C <= T -> range_len 0 (T - C + 1) (C - ov) = (T - ov) / (C - ov).
Proof.
  intros Hs HT. unfold range_len.
  rewrite (proj2 (Z.ltb_lt 0 (C - ov))) by lia.
  rewrite (proj2 (Z.ltb_lt 0 (T - C + 1))) by lia.
  replace (T - C + 1 - 0 - 1) with (T - C) by lia.
  replace (T - ov) with (T - C + 1 * (C - ov)) by lia.
  rewrite Z.div_add by lia. reflexivity.
Qed.

Lemma range_len_short T C ov :
  ov < C -> T < C -> range_len 0 (T - C + 1) (C - ov) = 0.
Proof.
  intros Hs HT. unfold range_len.
  rewrite (proj2 (Z.ltb_lt 0 (C - ov))) by lia.
  rewrite (proj2 (Z.ltb_ge 0 (T - C + 1))) by lia. reflexivity.
Qed.

Lemma chunk_starts_eq T C ov :
  ov < C ->
  py_range 0 (T - C + 1) (C - ov) = ok (chunk_starts T C ov)
  /\ chunk_starts T C ov
     = map (fun k => Z.of_nat k * (C - ov))
           (seq 0 (Z.to_nat (range_len 0 (T - C + 1) (C - ov)))).
Proof.
  intros Hs. unfold chunk_starts. rewrite py_range_forward by lia.
  split; reflexivity.
Qed.

Lemma length_chunk_starts T C ov :
  ov < C -> C <= T ->
  Z.of_nat (length (chunk_starts T C ov)) = (T - ov) / (C - ov).
Proof.
  intros Hs HT. rewrite (proj2 (chunk_starts_eq T C ov Hs)).
  rewrite length_map, length_seq, range_len_chunks by lia.
  apply Z2Nat.id. apply Z.div_pos; lia.
Qed.

Lemma nth_chunk_starts T C ov j :
  ov < C -> (j < length (chunk_starts T C ov))%nat ->
  nth j (chunk_starts T C ov) 0 = Z.of_nat j * (C - ov).
Proof.
  intros Hs Hj. rewrite (proj2 (chunk_starts_eq T C ov Hs)) in *.
  rewrite length_map, length_seq in Hj.
  rewrite (nth_map_lt _ _ _ 0%nat) by (rewrite length_seq; lia).
  rewrite seq_nth by lia. reflexivity.
Qed.

(** Every chunk the loop visits lies inside the input. *)
Lemma chunk_starts_inside T C ov :
  ov < C -> Forall (fun i => 0 <= i /\ i + C <= T) (chunk_starts T C ov).
Proof.
  intros Hs. rewrite (proj2 (chunk_starts_eq T C ov Hs)).
  rewrite Forall_forall. intros i Hi.
  apply in_map_iff in Hi as (k & <- & Hk). apply in_seq in Hk.
  destruct (Z_lt_le_dec T C) as [Hlt|Hge].
  - rewrite range_len_short in Hk by lia. simpl in Hk. lia.
  - rewrite range_len_chunks in Hk by lia.
    assert (Hd : 0 <= (T - ov) / (C - ov)) by (apply Z.div_pos; lia).
    assert (Hm : (C - ov) * ((T - ov) / (C - ov)) <= T - ov)
      by (apply Z.mul_div_le; lia).
    split; [nia|]. nia.
Qed.

(** ** The chunk loop *)

Lemma length_with_stats f t mean std :
  length mean = length t -> length std = length t ->
  length (with_stats f t mean std) = length t.
Proof.
  intros Hm Hs. unfold with_stats. rewrite length_map, !length_combine. lia.
Qed.

Lemma length_zip3 f t s : length s = length t -> length (zip3 f t s) = length t.
Proof.
  intros H. unfold zip3. rewrite length_map, length_combine. lia.
Qed.

Section Pipeline.

Variable B : Backend.

(** The transform, the model and the inverse transform keep the number of
    channels, and the inverse transform returns [length] samples. *)
Hypothesis stft_channels :
  forall n h w, length (stft B n h w) = length w.
Hypothesis forward_channels :
  forall p x, length (fst (forward B p x)) = length x.
Hypothesis istft_shape :
  forall n h s len, 0 <= len ->
    length (istft B n h s len) = length s
    /\ rect (Z.to_nat len) (istft B n h s len).

Lemma separate_chunk_run (params : Params B) (nfft hop : Z) C chunk :
  exists out, separate_chunk B params nfft hop C chunk = (chunk_events, ok out).
Proof.
  unfold separate_chunk, normalize. cbv beta iota zeta.
  destruct (forward B params _) as [pred_mag pred_phase].
  eexists. reflexivity.
Qed.

Lemma reconstructed_shape (params : Params B) (nfft hop : Z) C input i :
  0 <= C ->
  length (reconstructed B params nfft hop C input i) = length input
  /\ rect (Z.to_nat C) (reconstructed B params nfft hop C input i).
Proof.
  intros HC. unfold reconstructed, separate_chunk, normalize.
  set (chunk := map (fun r => py_slice r i (Some (i + C))) input).
  assert (Lc : length chunk = length input) by (unfold chunk; apply length_map).
  cbv beta iota zeta.
  match goal with
  | |- context [forward B params ?x] =>
      pose proof (forward_channels params x) as Hf;
      destruct (forward B params x) as [pred_mag pred_phase]
  end.
  cbv beta iota zeta delta [rbind emit ret outcome snd ok] in *.
  match goal with
  | |- context [istft B nfft hop ?s C] =>
      destruct (istft_shape nfft hop s C HC) as [Hl Hr]
  end.
  split; [|exact Hr]. rewrite Hl.
  unfold polar, denormalize, mean12, std12, map3 in *.
  rewrite length_with_stats in Hf
    by (rewrite !length_map; reflexivity).
  rewrite length_map, stft_channels in Hf. cbn [fst] in Hf.
  repeat first [ rewrite length_map | rewrite stft_channels
               | rewrite length_combine | rewrite length_with_stats
               | rewrite length_zip3 ];
    lia.
Qed.

Lemma chunk_iteration_run (params : Params B) (nfft hop : Z) input C cfl buf i :
  chunk_iteration B params input C cfl nfft hop buf i
  = (chunk_events,
     overlap_add i C cfl buf (reconstructed B params nfft hop C input i)).
Proof.
  unfold chunk_iteration, reconstructed.
  destruct (separate_chunk_run params nfft hop C
              (map (fun r => py_slice r i (Some (i + C))) input)) as [out E].
  rewrite E. cbn. reflexivity.
Qed.

Lemma buffer_step_shape (params : Params B) (nfft hop : Z) input C cfl fi fo T buf i :
  0 <= i -> 0 <= cfl <= C -> i + C <= Z.of_nat T ->
  length fi = Z.to_nat cfl -> length fo = Z.to_nat cfl ->
  rect T buf -> length buf = length input ->
  let buf' := map2 (oa_row (Z.to_nat i) (Z.to_nat C) (Z.to_nat cfl) fi fo (0 <? i))
                   buf (reconstructed B params nfft hop C input i) in
  rect T buf' /\ length buf' = length input.
Proof.
  intros Hi Hc HT Lfi Lfo Hb Hlen buf'.
  destruct (reconstructed_shape params nfft hop C input i) as [Lr Rr]; [lia|].
  split.
  - eapply rect_map2; [|exact Hb|exact Rr].
    intros r q Hr Hq. apply length_oa_row; lia.
  - unfold buf'. rewrite length_map2; congruence.
Qed.

Lemma rfoldM_chunks (params : Params B) (nfft hop : Z) input C cfl fi fo T starts buf :
  0 <= cfl <= C ->
  linspace 0 1 cfl = ok fi -> linspace 1 0 cfl = ok fo ->
  Forall (fun i => 0 <= i /\ i + C <= Z.of_nat T) starts ->
  rect T buf -> length buf = length input ->
  rfoldM (chunk_iteration B params input C cfl nfft hop) starts buf
  = (flat_map (fun _ => chunk_events) starts,
     ok (buffer_after B params nfft hop C cfl fi fo input starts buf)).
Proof.
  intros Hc Hfi Hfo Hs. revert buf.
  destruct (linspace_ok 0 1 cfl) as (fi' & Efi & Lfi); [lia|].
  destruct (linspace_ok 1 0 cfl) as (fo' & Efo & Lfo); [lia|].
  assert (fi' = fi) as -> by (unfold ok in *; congruence).
  assert (fo' = fo) as -> by (unfold ok in *; congruence).
  induction Hs as [|i starts [Hi HiT] Hs IH]; intros buf Hb Hlen.
  - reflexivity.
  - destruct (reconstructed_shape params nfft hop C input i) as [Lr Rr]; [lia|].
    destruct (buffer_step_shape params nfft hop input C cfl fi fo T buf i) as [Hb' Hlen'];
      try assumption.
    cbn [rfoldM]. rewrite chunk_iteration_run.
    rewrite (overlap_add_ok i C cfl T fi fo) by (try assumption; congruence).
    rewrite rbind_ok, IH by assumption. reflexivity.
Qed.

Lemma buffer_after_shape (params : Params B) (nfft hop : Z) input C cfl fi fo T starts buf :
  0 <= cfl <= C ->
  length fi = Z.to_nat cfl -> length fo = Z.to_nat cfl ->
  Forall (fun i => 0 <= i /\ i + C <= Z.of_nat T) starts ->
  rect T buf -> length buf = length input ->
  rect T (buffer_after B params nfft hop C cfl fi fo input starts buf)
  /\ length (buffer_after B params nfft hop C cfl fi fo input starts buf)
     = length input.
Proof.
  intros Hc Lfi Lfo Hs. revert buf.
  induction Hs as [|i starts [Hi HiT] Hs IH]; intros buf Hb Hlen.
  - split; assumption.
  - destruct (buffer_step_shape params nfft hop input C cfl fi fo T buf i) as [Hb' Hlen'];
      try assumption.
    unfold buffer_after. cbn [fold_left]. apply IH; assumption.
Qed.

(** One chunk changes no sample outside [i, i + chunk_size). *)
Lemma sample_step (params : Params B) (nfft hop : Z) input C cfl fi fo T buf i c p :
  0 <= i -> 0 <= cfl <= C -> i + C <= Z.of_nat T ->
  length fi = Z.to_nat cfl -> length fo = Z.to_nat cfl ->
  rect T buf -> length buf = length input -> (c < length input)%nat ->
  sample (map2 (oa_row (Z.to_nat i) (Z.to_nat C) (Z.to_nat cfl) fi fo (0 <? i))
               buf (reconstructed B params nfft hop C input i)) c p
  = let q := reconstructed B params nfft hop C input i in
    if (p <? Z.to_nat i)%nat then sample buf c p
    else if (p <? Z.to_nat i + Z.to_nat cfl)%nat then
           if 0 <? i then (sample buf c p * nth (p - Z.to_nat i) fo 0
                           + sample q c (p - Z.to_nat i)
                             * nth (p - Z.to_nat i) fi 0)%Q
           else sample buf c p
    else if (p <? Z.to_nat i + Z.to_nat C)%nat then sample q c (p - Z.to_nat i)
    else sample buf c p.
Proof.
  intros Hi Hc HT Lfi Lfo Hb Hlen Hcn.
  destruct (reconstructed_shape params nfft hop C input i) as [Lr Rr]; [lia|].
  unfold sample. cbv zeta.
  rewrite (nth_map2 _ _ _ c [] [] []) by lia.
  apply (nth_oa_row _ _ _ _ _ _ _ _ T); try lia.
  - apply rect_nth; [exact Hb | lia].
  - apply rect_nth; [exact Rr | lia].
Qed.

Lemma buffer_after_untouched (params : Params B) (nfft hop : Z) input C cfl fi fo T starts buf bound c p :
  0 <= cfl <= C ->
  length fi = Z.to_nat cfl -> length fo = Z.to_nat cfl ->
  Forall (fun i => 0 <= i /\ i + C <= bound) starts -> bound <= Z.of_nat T ->
  rect T buf -> length buf = length input -> (c < length input)%nat ->
  bound <= Z.of_nat p ->
  sample (buffer_after B params nfft hop C cfl fi fo input starts buf) c p
  = sample buf c p.
Proof.
  intros Hc Lfi Lfo Hs HbT. revert buf.
  induction Hs as [|i starts [Hi HiT] Hs IH]; intros buf Hb Hlen Hcn Hp.
  - reflexivity.
  - destruct (buffer_step_shape params nfft hop input C cfl fi fo T buf i) as [Hb' Hlen'];
      try assumption; try lia.
    unfold buffer_after. cbn [fold_left].
    fold (buffer_after B params nfft hop C cfl fi fo input starts
            (map2 (oa_row (Z.to_nat i) (Z.to_nat C) (Z.to_nat cfl) fi fo (0 <? i))
                  buf (reconstructed B params nfft hop C input i))).
    rewrite IH by assumption.
    rewrite (sample_step params nfft hop input C cfl fi fo T) by (try assumption; lia).
    cbv zeta. cmp_nat; reflexivity.
Qed.


Lemma rbind_emit {A} e (k : unit -> Run A) :
  rbind (emit e) k = (e :: fst (k tt), snd (k tt)).
Proof. unfold emit. rewrite rbind_ok. reflexivity. Qed.

Lemma rbind_lift_ok {A C} (a : A) (k : A -> Run C) :
  rbind (lift (ok a)) k = k a.
Proof. unfold lift. rewrite rbind_ok. destruct (k a). reflexivity. Qed.

Lemma shape1_rect {A} T (t : list (list A)) :
  rect T t -> (0 < length t)%nat -> shape1 t = Z.of_nat T.
Proof.
  intros H Hl. destruct t as [|r t]; [simpl in Hl; lia|].
  inversion H; subst. reflexivity.
Qed.

Lemma zeros_like_shape T (t : Tensor2) :
  rect T t -> rect T (zeros_like t) /\ length (zeros_like t) = length t.
Proof.
  intros H. unfold zeros_like. split; [|apply length_map].
  eapply rect_map; [|exact H]. intros r Hr. rewrite length_map. exact Hr.
Qed.

Lemma sample_zeros_like t c p : sample (zeros_like t) c p = 0%Q.
Proof.
  unfold sample, zeros_like.
  destruct (Nat.lt_ge_cases c (length t)) as [Hc|Hc].
  - rewrite (nth_map_lt _ _ _ []) by exact Hc.
    destruct (Nat.lt_ge_cases p (length (nth c t []))) as [Hp|Hp].
    + rewrite (nth_map_lt _ _ _ 0%Q) by exact Hp. reflexivity.
    + apply nth_overflow. rewrite length_map. exact Hp.
  - rewrite (nth_overflow (map _ t)) by (rewrite length_map; exact Hc).
    destruct p; reflexivity.
Qed.

Lemma sample_clamp lo hi t c p :
  (lo <= 0 <= hi)%Q ->
  sample (clamp_tensor lo hi t) c p == clamp lo hi (sample t c p).
Proof.
  intros [Hlo Hhi]. unfold sample, clamp_tensor.
  assert (Hz : clamp lo hi 0 == 0).
  { unfold clamp. rewrite Q.max_l by exact Hlo. apply Q.min_l. exact Hhi. }
  destruct (Nat.lt_ge_cases c (length t)) as [Hc|Hc].
  - rewrite (nth_map_lt _ _ _ []) by exact Hc.
    destruct (Nat.lt_ge_cases p (length (nth c t []))) as [Hp|Hp].
    + rewrite (nth_map_lt _ _ _ 0%Q) by exact Hp. reflexivity.
    + rewrite !nth_overflow by (rewrite ?length_map; exact Hp).
      symmetry. exact Hz.
  - rewrite (nth_overflow (map _ t)) by (rewrite length_map; exact Hc).
    rewrite (nth_overflow t) by exact Hc.
    destruct p; symmetry; exact Hz.
Qed.

(** [inference] on a stereo input whose rows have [T] samples, for an
    overlap smaller than the chunk: it does not raise; it runs one
    transform, one forward pass and one inverse transform per chunk start
    and saves the clamped buffer. *)
Lemma inference_run (model0 ckm : Params B) (nfft hop : Z)
    input sr path C ov T :
  length input = 2%nat -> rect T input -> 0 <= ov < C ->
  exists fi fo,
    linspace 0 1 (ov / 2) = ok fi /\ linspace 1 0 (ov / 2) = ok fo /\
    let out := clamp_tensor (-1) 1
                 (buffer_after B (load_state_dict B model0 ckm) nfft hop C (ov / 2)
                    fi fo input (chunk_starts (Z.of_nat T) C ov)
                    (zeros_like input)) in
    inference B model0 ckm input sr path C ov nfft hop
    = (EvLoadCheckpoint :: EvLoadAudio "input_wav"
         :: flat_map (fun _ => chunk_events) (chunk_starts (Z.of_nat T) C ov)
         ++ [EvSaveAudio path out sr],
       ok out).
Proof.
  intros Hch Hrect Hov.
  assert (Hcfl : 0 <= ov / 2 <= C).
  { split; [apply Z.div_pos; lia|].
    assert (ov / 2 <= ov) by (apply Z.div_le_upper_bound; lia). lia. }
  destruct (linspace_ok 0 1 (ov / 2)) as (fi & Efi & Lfi); [lia|].
  destruct (linspace_ok 1 0 (ov / 2)) as (fo & Efo & Lfo); [lia|].
  exists fi, fo. split; [exact Efi|]. split; [exact Efo|]. cbv zeta.
  destruct (zeros_like_shape T input Hrect) as [Hz Lz].
  unfold inference.
  rewrite rbind_emit. cbv zeta. rewrite rbind_emit.
  unfold shape0. rewrite Hch. cbn [Z.of_nat Z.eqb Pos.eqb Pos.of_succ_nat Pos.succ negb].
  rewrite (shape1_rect T input Hrect) by lia.
  unfold floordiv. rewrite (proj2 (Z.eqb_neq (C - ov) 0)) by lia.
  rewrite rbind_lift_ok.
  rewrite (proj1 (chunk_starts_eq (Z.of_nat T) C ov (proj2 Hov))).
  rewrite rbind_lift_ok.
  rewrite (rfoldM_chunks _ nfft hop input C (ov / 2) fi fo T);
    try assumption; [|apply chunk_starts_inside; lia].
  rewrite rbind_ok. rewrite rbind_emit. reflexivity.
Qed.

Lemma Forall_firstn_of {A} (P : A -> Prop) n (l : list A) :
  Forall P l -> Forall P (firstn n l).
Proof.
  intros H. revert n. induction H as [|x l Hx H IH]; intros [|n]; simpl;
    constructor; auto.
Qed.

Lemma firstn_snoc {A} (l : list A) n d :
  (n < length l)%nat -> firstn (S n) l = firstn n l ++ [nth n l d].
Proof.
  revert n. induction l as [|x l IH]; intros [|n] H; simpl in *; try lia.
  - reflexivity.
  - f_equal. apply IH. lia.
Qed.

Lemma count_forward (l : list Z) :
  length (filter is_forward (flat_map (fun _ => chunk_events) l)) = length l.
Proof.
  induction l as [|i l IH]; simpl; [reflexivity|]. rewrite IH. reflexivity.
Qed.

Lemma half_overlap ov C : 0 <= ov < C -> 0 <= ov / 2 <= ov /\ ov / 2 <= C.
Proof.
  intros H. assert (0 <= ov / 2) by (apply Z.div_pos; lia).
  assert (ov / 2 <= ov) by (apply Z.div_le_upper_bound; lia). lia.
Qed.

(** C1, what the code does: the chunk that starts at 0 is not cross-faded,
    and only its samples from [overlap / 2] on are copied into the zero
    buffer; the first [overlap / 2] samples of the buffer stay zero,
    whatever the reconstructed chunk holds there. *)
Theorem first_chunk_head_stays_zero (params : Params B) (nfft hop : Z)
    (input : Tensor2) (C ov : Z) (T : nat) :
  length input = 2%nat -> rect T input -> 0 <= ov < C -> C <= Z.of_nat T ->
  exists buf1,
    outcome (chunk_iteration B params input C (ov / 2) nfft hop
               (zeros_like input) 0) = ok buf1
    /\ forall c p, (c < 2)%nat ->
         (Z.of_nat p < ov / 2 -> sample buf1 c p = 0%Q)
         /\ (ov / 2 <= Z.of_nat p < C ->
             sample buf1 c p
             = sample (reconstructed B params nfft hop C input 0) c p).
Proof.
  intros Hch Hrect Hov HT.
  destruct (half_overlap ov C Hov) as [Hh HhC].
  destruct (linspace_ok 0 1 (ov / 2)) as (fi & Efi & Lfi); [lia|].
  destruct (linspace_ok 1 0 (ov / 2)) as (fo & Efo & Lfo); [lia|].
  destruct (zeros_like_shape T input Hrect) as [Hz Lz].
  destruct (reconstructed_shape params nfft hop C input 0) as [Lr Rr]; [lia|].
  rewrite chunk_iteration_run. unfold outcome. cbn [snd].
  rewrite (overlap_add_ok 0 C (ov / 2) T fi fo) by (try assumption; lia).
  eexists. split; [reflexivity|].
  intros c p Hc.
  rewrite (sample_step params nfft hop input C (ov / 2) fi fo T)
    by (try assumption; lia).
  cbv zeta. rewrite sample_zeros_like.
  change (Z.to_nat 0) with 0%nat. change (0 <? 0) with false.
  split; intros Hp; cmp_nat; try reflexivity.
  f_equal. lia.
Qed.

(** C3: for the chunk number [j >= 1], which starts at [i = j * S], each of
    the first [overlap / 2] samples the loop body leaves in the buffer is
    [old * fade_out + new * fade_in]: the buffer content found there, scaled
    by the falling ramp, plus the new chunk's sample scaled by the rising
    ramp; the two weights lie in [0, 1] and add up to one.  When
    [overlap / 2 <= S] the content found there is the reconstruction of the
    chunk before, at offset [S + k]. *)
Theorem crossfade_is_convex (params : Params B) (nfft hop : Z)
    (input : Tensor2) (C ov : Z) (T j : nat) :
  length input = 2%nat -> rect T input -> 0 <= ov < C ->
  (1 <= j < length (chunk_starts (Z.of_nat T) C ov))%nat ->
  let S := C - ov in
  let cfl := ov / 2 in
  let starts := chunk_starts (Z.of_nat T) C ov in
  let i := nth j starts 0 in
  exists fade_in fade_out prev cur,
    linspace 0 1 cfl = ok fade_in /\ linspace 1 0 cfl = ok fade_out
    /\ i = Z.of_nat j * S
    /\ outcome (rfoldM (chunk_iteration B params input C cfl nfft hop)
                       (firstn j starts) (zeros_like input)) = ok prev
    /\ outcome (chunk_iteration B params input C cfl nfft hop prev i) = ok cur
    /\ forall c k, (c < 2)%nat -> Z.of_nat k < cfl ->
         (nth k fade_in 0 + nth k fade_out 0 == 1
          /\ 0 <= nth k fade_in 0 <= 1 /\ 0 <= nth k fade_out 0 <= 1)%Q
         /\ sample cur c (Z.to_nat i + k)
            = (sample prev c (Z.to_nat i + k) * nth k fade_out 0
               + sample (reconstructed B params nfft hop C input i) c k
                 * nth k fade_in 0)%Q
         /\ (cfl <= S ->
             sample prev c (Z.to_nat i + k)
             = sample (reconstructed B params nfft hop C input (i - S)) c
                      (Z.to_nat S + k)).
Proof.
  intros Hch Hrect Hov Hj S cfl starts i. subst i starts.
  set (starts := chunk_starts (Z.of_nat T) C ov) in *.
  set (i := nth j starts 0).
  destruct (half_overlap ov C Hov) as [Hh HhC]. fold cfl in Hh, HhC.
  destruct (linspace_ok 0 1 cfl) as (fi & Efi & Lfi); [lia|].
  destruct (linspace_ok 1 0 cfl) as (fo & Efo & Lfo); [lia|].
  destruct (zeros_like_shape T input Hrect) as [Hz Lz].
  assert (Hin : Forall (fun i => 0 <= i /\ i + C <= Z.of_nat T) starts)
    by (apply chunk_starts_inside; lia).
  assert (Ei : i = Z.of_nat j * S)
    by (apply nth_chunk_starts; [lia | apply Hj]).
  assert (Hi : 0 <= i /\ i + C <= Z.of_nat T).
  { rewrite Forall_forall in Hin. apply Hin. apply nth_In. apply Hj. }
  set (prev := buffer_after B params nfft hop C cfl fi fo input
                 (firstn j starts) (zeros_like input)).
  destruct (buffer_after_shape params nfft hop input C cfl fi fo T
              (firstn j starts) (zeros_like input)) as [Hp Lp];
    try assumption; [lia | apply Forall_firstn_of; exact Hin |].
  fold prev in Hp, Lp.
  destruct (reconstructed_shape params nfft hop C input i) as [Lr Rr]; [lia|].
  exists fi, fo, prev.
  eexists. split; [exact Efi|]. split; [exact Efo|]. split; [exact Ei|].
  split.
  { rewrite (rfoldM_chunks params nfft hop input C cfl fi fo T);
      try assumption; [reflexivity | lia | apply Forall_firstn_of; exact Hin]. }
  split.
  { rewrite chunk_iteration_run. unfold outcome. cbn [snd].
    rewrite (overlap_add_ok i C cfl T fi fo) by (try assumption; lia).
    reflexivity. }
  intros c k Hc Hk.
  split; [apply (fade_weights cfl); try assumption; lia|].
  split.
  - rewrite (sample_step params nfft hop input C cfl fi fo T)
      by (try assumption; lia).
    cbv zeta. rewrite (proj2 (Z.ltb_lt 0 i)) by nia.
    cmp_nat. replace (Z.to_nat i + k - Z.to_nat i)%nat with k by lia.
    reflexivity.
  - intros HS. destruct j as [|j']; [lia|].
    assert (Ei' : nth j' starts 0 = Z.of_nat j' * S)
      by (apply nth_chunk_starts; [lia | fold starts; lia]).
    assert (Hi' : 0 <= nth j' starts 0 /\ nth j' starts 0 + C <= Z.of_nat T).
    { rewrite Forall_forall in Hin. apply Hin. apply nth_In. lia. }
    unfold prev. rewrite (firstn_snoc starts j' 0) by lia.
    unfold buffer_after. rewrite fold_left_app. cbn [fold_left].
    fold (buffer_after B params nfft hop C cfl fi fo input (firstn j' starts)
            (zeros_like input)).
    destruct (buffer_after_shape params nfft hop input C cfl fi fo T
                (firstn j' starts) (zeros_like input)) as [Hp' Lp'];
      try assumption; [lia | apply Forall_firstn_of; exact Hin |].
    rewrite (sample_step params nfft hop input C cfl fi fo T)
      by (try assumption; lia).
    cbv zeta. replace (i - S) with (nth j' starts 0) by lia.
    cmp_nat. f_equal. lia.
Qed.

Lemma clamp_zeros t : clamp_tensor (-1) 1 (zeros_like t) = zeros_like t.
Proof.
  unfold clamp_tensor, zeros_like. rewrite map_map. apply map_ext.
  intros r. rewrite map_map. reflexivity.
Qed.

(** C10: a stereo input shorter than one chunk goes through no chunk at
    all; [inference] does not raise and saves a waveform of the input's
    shape whose samples are all zero. *)
Theorem short_input_gives_silence (model0 ckm : Params B) (nfft hop : Z)
    (input : Tensor2) (sr : Z) (path : string) (C ov : Z) :
  length input = 2%nat -> ov < C -> shape1 input < C ->
  inference B model0 ckm input sr path C ov nfft hop
  = ([EvLoadCheckpoint; EvLoadAudio "input_wav";
      EvSaveAudio path (zeros_like input) sr],
     ok (zeros_like input))
  /\ length (zeros_like input) = length input
  /\ (forall c, length (nth c (zeros_like input) []) = length (nth c input []))
  /\ (forall c p, sample (zeros_like input) c p = 0%Q).
Proof.
  intros Hch Hov Hshort. split; [|split; [|split]].
  - unfold inference.
    rewrite rbind_emit. cbv zeta. rewrite rbind_emit.
    unfold shape0. rewrite Hch.
    cbn [Z.of_nat Z.eqb Pos.eqb Pos.of_succ_nat Pos.succ negb].
    unfold floordiv. rewrite (proj2 (Z.eqb_neq (C - ov) 0)) by lia.
    rewrite rbind_lift_ok.
    rewrite py_range_forward, range_len_short by lia.
    rewrite rbind_lift_ok. cbn [Z.to_nat seq map rfoldM].
    unfold ret.
    repeat (rewrite ?rbind_ok, ?rbind_emit, ?clamp_zeros; cbn [fst snd app]).
    reflexivity.
  - apply length_map.
  - intros c. unfold zeros_like.
    destruct (Nat.lt_ge_cases c (length input)) as [Hc|Hc].
    + rewrite (nth_map_lt _ _ _ []) by exact Hc. apply length_map.
    + rewrite !nth_overflow by (rewrite ?length_map; exact Hc). reflexivity.
  - apply sample_zeros_like.
Qed.

(** C8: a file whose channel count is not 2 makes [__getitem__] and
    [inference] raise their [ValueError] right after the files are loaded:
    the trace holds the loads and nothing else, no transform and no model
    call. *)
Theorem channel_count_checked_at_load
    (ds : MUSDBDataset) (track : Track) (draw : Z)
    (model0 ckm : Params B) (input : Tensor2) (sr : Z) (path : string)
    (C ov nfft hop : Z) :
  (shape0 (other_wav track) <> 2 \/ shape0 (vocals_wav track) <> 2 ->
   getitem B ds track draw
   = ([EvLoadAudio "other.wav"; EvLoadAudio "vocals.wav"],
      raise (ValueError "Audio files must have 2 channels.")))
  /\ (shape0 input <> 2 ->
      inference B model0 ckm input sr path C ov nfft hop
      = ([EvLoadCheckpoint; EvLoadAudio "input_wav"],
         raise (ValueError "Input audio must have 2 channels."))).
Proof.
  split.
  - intros H. unfold getitem.
    rewrite rbind_emit. cbv zeta. rewrite rbind_emit.
    assert (E : negb (shape0 (other_wav track) =? 2)
                || negb (shape0 (vocals_wav track) =? 2) = true).
    { apply orb_true_iff.
      destruct H as [H|H]; [left|right];
        apply negb_true_iff; apply Z.eqb_neq; exact H. }
    rewrite E. reflexivity.
  - intros H. unfold inference.
    rewrite rbind_emit. cbv zeta. rewrite rbind_emit.
    rewrite (proj2 (Z.eqb_neq _ _) H). reflexivity.
Qed.

End Pipeline.

(** ** Normalization *)



Lemma combine_stats {A} (h : list (list Q) -> A) (a b : list (list Q) -> Q) t :
  combine (map h t) (combine (map a t) (map b t))
  = map (fun c => (h c, (a c, b c))) t.
Proof.
  induction t as [|c t IH]; simpl; [reflexivity|]. rewrite IH. reflexivity.
Qed.

Lemma with_stats_map f (h : list (list Q) -> list (list Q)) a b t :
  with_stats f (map h t) (map a t) (map b t)
  = map (fun c => map (map (fun x => f x (a c) (b c))) (h c)) t.
Proof.
  unfold with_stats. rewrite combine_stats, map_map. reflexivity.
Qed.


Lemma Qsum_zero l : Forall (fun x => x == 0)%Q l -> (Qsum l == 0)%Q.
Proof.
  induction 1 as [|x l Hx H IH]; simpl; [reflexivity|].
  rewrite Hx, IH. reflexivity.
Qed.


Section Normalization.

Variable B : Backend.

(** The square root never returns a negative number. *)
Hypothesis sqrtQ_nonneg : forall x, (0 <= sqrtQ B x)%Q.



End Normalization.

(** ** The dataset's segmenting *)

Lemma shape2_with_stats f t mean std :
  length mean = length t -> length std = length t ->
  shape2 (with_stats f t mean std) = shape2 t.
Proof.
  intros Hm Hs. unfold with_stats.
  destruct t as [|c t]; [reflexivity|].
  destruct mean as [|m mean]; [discriminate|].
  destruct std as [|s std]; [discriminate|].
  simpl. destruct c as [|r c]; [reflexivity|]. simpl.
  rewrite length_map. reflexivity.
Qed.

Lemma shape2_map3 {A B} (f : A -> B) t : shape2 (map3 f t) = shape2 t.
Proof.
  destruct t as [|[|r c] t]; try reflexivity. simpl.
  rewrite length_map. reflexivity.
Qed.

Lemma shape2_magnitude_normalized B spec :
  shape2 (magnitude_normalized B spec) = shape2 spec.
Proof.
  unfold magnitude_normalized, normalize. cbn [fst].
  rewrite shape2_with_stats; [apply shape2_map3 | |];
    unfold mean12, std12; apply length_map.
Qed.

Lemma randint_range low high draw start :
  randint low high draw = ok start -> low <= start < high.
Proof.
  unfold randint. destruct (high <=? low) eqn:E; [discriminate|].
  apply Z.leb_gt in E. intros H. injection H as <-.
  pose proof (Z.mod_pos_bound draw (high - low)). lia.
Qed.

Section Segmenting.

Variable B : Backend.

(** C5, what the code does: the branch of line 141 is taken also when the
    spectrogram has exactly the requested number of frames, and there
    [torch.randint(0, 0, ...)] raises, so the item access fails; and with
    more frames than requested the start is drawn from
    [0, frames_available - frames_requested), so the window that ends at
    the last frame is never returned. *)
Theorem getitem_exact_length_raises (ds : MUSDBDataset) (track : Track)
    (draw : Z) :
  shape0 (other_wav track) = 2 -> shape0 (vocals_wav track) = 2 ->
  segment ds = true -> segment_length ds <> 0 -> hop_length ds <> 0 ->
  let min_length := Z.min (shape1 (other_wav track)) (shape1 (vocals_wav track)) in
  let mixture := map (fun r => py_slice r 0 (Some min_length)) (other_wav track) in
  let frames := segment_length ds / hop_length ds in
  let available := shape2 (stft B (n_fft ds) (hop_length ds) mixture) in
  (available = frames ->
   outcome (getitem B ds track draw)
   = raise (RuntimeError "random_ expects 'from' to be less than 'to'"))
  /\ (frames < available ->
      forall mixture_spec vocals_spec,
        shape2 mixture_spec = available ->
        exists start,
          0 <= start < available - frames
          /\ segment_specs ds draw mixture_spec vocals_spec
             = ok (slice_frames start (start + frames) mixture_spec,
                   slice_frames start (start + frames) vocals_spec)).
Proof.
  intros Hm Hv Hseg Hlen Hhop min_length mixture frames available.
  split.
  - intros Heq. unfold getitem.
    rewrite rbind_emit. cbv zeta. rewrite rbind_emit.
    rewrite Hm, Hv. cbn [Z.eqb Pos.eqb negb orb].
    rewrite !rbind_emit. unfold outcome. cbn [snd].
    fold min_length. fold mixture.
    unfold segment_specs. rewrite Hseg.
    rewrite (proj2 (Z.eqb_neq _ _) Hlen). cbn [negb andb].
    unfold floordiv. rewrite (proj2 (Z.eqb_neq _ _) Hhop).
    rewrite ebind_ok. fold frames.
    rewrite shape2_magnitude_normalized. fold available. rewrite Heq.
    rewrite (proj2 (Z.geb_le frames frames)) by lia.
    unfold randint. rewrite Z.sub_diag. cbn [Z.leb Z.compare].
    reflexivity.
  - intros Hgt mixture_spec vocals_spec Hshape.
    unfold segment_specs. rewrite Hseg.
    rewrite (proj2 (Z.eqb_neq _ _) Hlen). cbn [negb andb].
    unfold floordiv. rewrite (proj2 (Z.eqb_neq _ _) Hhop).
    rewrite ebind_ok. fold frames. rewrite Hshape.
    rewrite (proj2 (Z.geb_le available frames)) by lia.
    unfold randint. rewrite (proj2 (Z.leb_gt (available - frames) 0)) by lia.
    rewrite ebind_ok. exists (0 + draw mod (available - frames - 0)).
    split; [|reflexivity].
    pose proof (Z.mod_pos_bound draw (available - frames - 0)). lia.
Qed.

End Segmenting.

(** ** Training targets *)

Lemma angle_real_values x :
  (angle_real x = 0%Q \/ angle_real x = pi32)
  /\ ((0 <= x)%Q -> angle_real x = 0%Q)
  /\ ((x < 0)%Q -> angle_real x = pi32).
Proof.
  unfold angle_real. destruct (Qle_bool 0 x) eqn:E.
  - apply Qle_bool_iff in E. repeat split; auto. intros H. lra.
  - repeat split; auto. intros H. apply Qle_bool_iff in H. congruence.
Qed.

(** C6, what the code does: the tensor [train] takes the absolute value
    and the angle of is the normalized magnitude the dataset yields, a real
    tensor.  For a target spectrogram whose bins all have phase pi/2 and
    magnitudes 1, 2, 3, the phase target is (pi, 0, 0), the sign pattern of
    the normalized magnitudes, and the magnitude target is their absolute
    value, not (1, 2, 3); a spectrogram with the same magnitudes and phase
    0 gives the same two targets. *)
Theorem phase_target_of_imaginary_bins :
  let v := magnitude_normalized Toy.backend spec_imaginary in
  map3 Qred v
  = [[[-100000000 # 100000001; 0; 100000000 # 100000001]];
     [[-100000000 # 100000001; 0; 100000000 # 100000001]]]%Q
  /\ snd (targets v) = [[[pi32; 0; 0]]; [[pi32; 0; 0]]]%Q
  /\ map3 Qred (fst (targets v))
     = [[[100000000 # 100000001; 0; 100000000 # 100000001]];
        [[100000000 # 100000001; 0; 100000000 # 100000001]]]%Q
  /\ targets (magnitude_normalized Toy.backend spec_real) = targets v.
Proof.
  cbv zeta. repeat split; vm_compute; reflexivity.
Qed.

(** ** Checkpoints *)

Section Training.

Variable B : Backend.

Lemma step_train_update st batch :
  step B (train_update B st batch) = step B st + 1.
Proof.
  unfold train_update.
  destruct (train_batch B _ _ _ _ _ _ _) as [[[loss m'] o'] s'].
  reflexivity.
Qed.

Lemma state_after_succ st b rest n :
  state_after B st (b :: rest) (S n)
  = state_after B (train_update B st b) rest n.
Proof. reflexivity. Qed.

Lemma step_state_after st batches n :
  (n <= length batches)%nat ->
  step B (state_after B st batches n) = step B st + Z.of_nat n.
Proof.
  revert st n. induction batches as [|b rest IH]; intros st [|n] Hn;
    simpl in Hn; try lia; unfold state_after; simpl; try lia.
  fold (state_after B (train_update B st b) rest n).
  rewrite IH by lia. rewrite step_train_update. lia.
Qed.

Lemma train_loop_run cs st fs batches :
  cs <> 0 -> 0 <= step B st ->
  foldM (train_iteration B cs) batches (st, fs)
  = ok (state_after B st batches (length batches),
        checkpoints_written B cs st batches ++ fs).
Proof.
  intros Hcs. revert st fs.
  induction batches as [|b rest IH]; intros st fs Hst.
  - reflexivity.
  - cbn [foldM]. unfold train_iteration at 1. cbn [fst snd].
    rewrite (proj2 (Z.eqb_neq (step B st + 1) 0)) by lia.
    unfold pymod. rewrite (proj2 (Z.eqb_neq cs 0)) by exact Hcs.
    rewrite ebind_ok.
    cbn [length]. rewrite state_after_succ. cbn [checkpoints_written].
    rewrite <- app_assoc.
    assert (Hnext : 0 <= step B (train_update B st b))
      by (rewrite step_train_update; lia).
    destruct (step B (train_update B st b) mod cs =? 0);
      rewrite ebind_ok, IH by exact Hnext; reflexivity.
Qed.

(** A checkpoint file is found exactly for the steps of this run that are
    multiples of [cs], and it holds the state after that step. *)
Lemma torch_load_checkpoint cs st batches fs m :
  torch_load B (checkpoint_step_pt m) (checkpoints_written B cs st batches ++ fs)
  = if (step B st <? m) && (m <=? step B st + Z.of_nat (length batches))
       && (m mod cs =? 0)
    then Some (CheckpointData B
                 (snapshot B (state_after B st batches (Z.to_nat (m - step B st)))))
    else torch_load B (checkpoint_step_pt m) fs.
Proof.
  revert st fs. induction batches as [|b rest IH]; intros st fs.
  - cbn [checkpoints_written app length Z.of_nat].
    destruct (step B st <? m) eqn:E1; [|reflexivity].
    destruct (m <=? step B st + 0) eqn:E2; [|reflexivity].
    apply Z.ltb_lt in E1. apply Z.leb_le in E2. lia.
  - cbn [checkpoints_written]. rewrite <- app_assoc. rewrite IH.
    pose proof (step_train_update st b) as Hs. rewrite Hs.
    cbn [length]. rewrite Nat2Z.inj_succ.
    destruct (m mod cs =? 0) eqn:Em.
    + destruct (Z.ltb_spec (step B st + 1) m) as [H1|H1];
        destruct (Z.leb_spec m (step B st + 1 + Z.of_nat (length rest))) as [H2|H2];
        destruct (Z.ltb_spec (step B st) m) as [H3|H3];
        destruct (Z.leb_spec m (step B st + Z.succ (Z.of_nat (length rest)))) as [H4|H4];
        cbn [andb]; try lia.
      all: try (replace (Z.to_nat (m - step B st))
                  with (S (Z.to_nat (m - (step B st + 1)))) by lia;
                rewrite state_after_succ; reflexivity).
      all: try (assert (m = step B st + 1) as -> by lia;
                rewrite Em; cbn [app torch_load file_eqb];
                rewrite Z.eqb_refl;
                replace (step B st + 1 - step B st) with 1 by lia;
                reflexivity).
      all: destruct ((step B st + 1) mod cs =? 0); [|reflexivity];
        cbn [app torch_load file_eqb];
        rewrite (proj2 (Z.eqb_neq m (step B st + 1))) by lia; reflexivity.
    + rewrite !andb_false_r.
      destruct ((step B st + 1) mod cs =? 0) eqn:E; [|reflexivity].
      cbn [app torch_load file_eqb].
      destruct (Z.eqb_spec m (step B st + 1)) as [->|Hne]; [|reflexivity].
      congruence.
Qed.

(** C7: a run from scratch over [batches] with [checkpoint_steps <> 0]
    does not raise.  For every [N], the file [checkpoint_step_N.pt] is
    written exactly when [0 < N <= number of batches] and [N] is a multiple
    of [checkpoint_steps]; it then holds the step counter [N], the model
    parameters, the optimizer state, the average loss and the loss history
    of the state after [N] steps, and [train] started on it resumes with
    exactly these five values. *)
Theorem checkpoint_round_trip (model0 model1 : Params B)
    (optimizer0 optimizer1 : OptState B)
    (batches : list (list (Tensor3 * Tensor3))) (cs : Z) (fs0 : Files B) :
  cs <> 0 ->
  let start := train_init B model0 optimizer0 None in
  exists fs,
    train B model0 optimizer0 batches cs None fs0
    = ok (state_after B start batches (length batches), fs)
    /\ forall N : Z,
         (0 < N <= Z.of_nat (length batches) -> N mod cs = 0 ->
          let saved := state_after B start batches (Z.to_nat N) in
          let resumed := train_init B model1 optimizer1 (Some (snapshot B saved)) in
          torch_load B (checkpoint_step_pt N) fs
          = Some (CheckpointData B (snapshot B saved))
          /\ step B saved = N
          /\ step B resumed = N
          /\ avg_loss B resumed = avg_loss B saved
          /\ model B resumed = model B saved
          /\ optimizer B resumed = optimizer B saved
          /\ loss_log B resumed = loss_log B saved)
         /\ (~ (0 < N <= Z.of_nat (length batches) /\ N mod cs = 0) ->
             torch_load B (checkpoint_step_pt N) fs
             = torch_load B (checkpoint_step_pt N) fs0).
Proof.
  intros Hcs start. unfold train. fold start.
  rewrite train_loop_run by (try exact Hcs; cbn; lia).
  rewrite ebind_ok. cbn [fst snd].
  eexists. split; [reflexivity|].
  intros N. unfold torch_save. cbn [torch_load file_eqb].
  rewrite torch_load_checkpoint.
  change (step B start) with 0. rewrite Z.sub_0_r, Z.add_0_l.
  split.
  - intros HN Hmod.
    rewrite (proj2 (Z.ltb_lt 0 N)), (proj2 (Z.leb_le N _)),
      (proj2 (Z.eqb_eq _ _) Hmod) by lia.
    cbn [andb].
    assert (Hstep : step B (state_after B start batches (Z.to_nat N)) = N).
    { rewrite step_state_after by lia. change (step B start) with 0. lia. }
    repeat split; try reflexivity; exact Hstep.
  - intros Hnot.
    destruct (Z.ltb_spec 0 N); destruct (Z.leb_spec N (Z.of_nat (length batches)));
      destruct (Z.eqb_spec (N mod cs) 0); cbn [andb]; try reflexivity.
    exfalso. apply Hnot. lia.
Qed.

End Training.

(** ** The command line *)

(** C9: with neither flag [main] prints the usage message and does
    nothing else; with both flags it calls [train] and not [inference], so
    exactly one mode runs. *)
Theorem main_mode_selection (args : Args) :
  (arg_train args = false -> arg_infer args = false ->
   main args = [PrintMessage "Please specify either --train or --infer"]
   /\ modes_run (main args) = 0%nat)
  /\ (arg_train args = true -> arg_infer args = true ->
      modes_run (main args) = 1%nat
      /\ length (filter runs_train (main args)) = 1%nat
      /\ filter runs_infer (main args) = []).
Proof.
  unfold main. split; intros Ht Hi; rewrite Ht; try rewrite Hi;
    repeat split; reflexivity.
Qed.

(** ** The small backend meets the assumptions *)

Module ToyFacts.

Lemma toy_stft_channels n h w :
  length (stft Toy.backend n h w) = length w.
Proof. apply length_map. Qed.

Lemma toy_forward_channels (p : Params Toy.backend) x :
  length (fst (forward Toy.backend p x)) = length x.
Proof. cbn. unfold map3. apply length_map. Qed.

Lemma toy_length_fit n l : length (Toy.fit n l) = n.
Proof.
  unfold Toy.fit. rewrite length_firstn, length_app, repeat_length. lia.
Qed.

Lemma toy_istft_shape n h s len :
  0 <= len ->
  length (istft Toy.backend n h s len) = length s
  /\ rect (Z.to_nat len) (istft Toy.backend n h s len).
Proof.
  intros _. cbn. unfold Toy.istft1. split; [apply length_map|].
  unfold rect. rewrite Forall_forall. intros r Hr.
  apply in_map_iff in Hr as (c & <- & _). apply toy_length_fit.
Qed.


Lemma toy_rect_ramp n : rect n (Toy.ramp n).
Proof.
  unfold rect, Toy.ramp, Toy.wave.
  repeat constructor; rewrite length_map, length_seq; reflexivity.
Qed.

End ToyFacts.

(** ** The statements at concrete inputs *)

(** The schedule of section 8 of the specification: seven chunks, the last
    one ending at sample 90111 of 100000. *)
Example chunk_schedule_100000 :
  chunk_starts 100000 16384 4096
  = [0; 12288; 24576; 36864; 49152; 61440; 73728]
  /\ Z.of_nat (length (chunk_starts 100000 16384 4096))
     = (100000 - 4096) / (16384 - 4096)
  /\ 73728 + 16384 - 1 < 100000.
Proof. repeat split; reflexivity. Qed.

(** C2 as the claim states it fails when the overlap is larger than the
    chunk size: with 10 samples, [chunk_size = 4] and [overlap = 6] the
    stride is -2, the loop's range is empty and no chunk is processed,
    while [(total_length - overlap) // stride] is -2. *)
Lemma chunk_count_fails_for_large_overlap :
  4 <= Z.of_nat 10
  /\ py_range 0 (Z.of_nat 10 - 4 + 1) (4 - 6) = ok []
  /\ inference Toy.backend 0%Q 0%Q (Toy.ramp 10) 44100 "out.wav" 4 6 4096 1024
     = ([EvLoadCheckpoint; EvLoadAudio "input_wav";
         EvSaveAudio "out.wav" (zeros_like (Toy.ramp 10)) 44100],
        ok (zeros_like (Toy.ramp 10)))
  /\ Z.of_nat (length (filter is_forward
                 (trace (inference Toy.backend 0%Q 0%Q (Toy.ramp 10) 44100
                           "out.wav" 4 6 4096 1024)))) = 0
  /\ floordiv (Z.of_nat 10 - 6) (4 - 6) = ok (-2)
  /\ Z.of_nat (length (filter is_forward
                 (trace (inference Toy.backend 0%Q 0%Q (Toy.ramp 10) 44100
                           "out.wav" 4 6 4096 1024))))
     <> (Z.of_nat 10 - 6) / (4 - 6).
Proof.
  repeat split; try (vm_compute; reflexivity).
  - vm_compute. discriminate.
  - vm_compute. discriminate.
Qed.

Lemma first_chunk_head_stays_zero_witness :
  exists buf1,
    outcome (chunk_iteration Toy.backend 0%Q (Toy.ramp 14) 8 (4 / 2) 4096 1024
               (zeros_like (Toy.ramp 14)) 0) = ok buf1
    /\ sample buf1 0 0 = 0%Q
    /\ ~ (sample (reconstructed Toy.backend 0%Q 4096 1024 8 (Toy.ramp 14) 0) 0 0
          == 0)%Q.
Proof.
  destruct (first_chunk_head_stays_zero Toy.backend ToyFacts.toy_stft_channels
              ToyFacts.toy_forward_channels ToyFacts.toy_istft_shape
              0%Q 4096 1024 (Toy.ramp 14) 8 4 14
              eq_refl (ToyFacts.toy_rect_ramp 14) ltac:(lia) ltac:(lia))
    as (buf1 & E & H).
  exists buf1. split; [exact E|]. split.
  - apply (H 0%nat 0%nat); [lia | reflexivity].
  - vm_compute. discriminate.
Defined.

Lemma crossfade_is_convex_witness :
  exists fade_in fade_out,
    linspace 0 1 (4 / 2) = ok fade_in /\ linspace 1 0 (4 / 2) = ok fade_out
    /\ (nth 1 fade_in 0 + nth 1 fade_out 0 == 1)%Q.
Proof.
  destruct (crossfade_is_convex Toy.backend ToyFacts.toy_stft_channels
              ToyFacts.toy_forward_channels ToyFacts.toy_istft_shape
              0%Q 4096 1024 (Toy.ramp 14) 8 4 14 1
              eq_refl (ToyFacts.toy_rect_ramp 14) ltac:(lia)
              ltac:(vm_compute; lia))
    as (fi & fo & prev & cur & Efi & Efo & _ & _ & _ & H).
  exists fi, fo. split; [exact Efi|]. split; [exact Efo|].
  apply (H 0%nat 1%nat); [lia | reflexivity].
Defined.

Lemma short_input_gives_silence_witness :
  inference Toy.backend 0%Q 0%Q (Toy.ramp 5) 44100 "out.wav" 8 4 4096 1024
  = ([EvLoadCheckpoint; EvLoadAudio "input_wav";
      EvSaveAudio "out.wav" (zeros_like (Toy.ramp 5)) 44100],
     ok (zeros_like (Toy.ramp 5))).
Proof.
  apply (short_input_gives_silence Toy.backend 0%Q 0%Q 4096 1024 (Toy.ramp 5)
           44100 "out.wav"%string 8 4 eq_refl);
    [lia | vm_compute; reflexivity].
Defined.

Lemma channel_count_checked_at_load_witness :
  getitem Toy.backend Toy.dataset
    {| other_wav := Toy.mono; vocals_wav := Toy.ramp 4 |} 0
  = ([EvLoadAudio "other.wav"; EvLoadAudio "vocals.wav"],
     raise (ValueError "Audio files must have 2 channels."))
  /\ inference Toy.backend 0%Q 0%Q Toy.mono 44100 "out.wav" 8 4 4096 1024
     = ([EvLoadCheckpoint; EvLoadAudio "input_wav"],
        raise (ValueError "Input audio must have 2 channels.")).
Proof.
  destruct (channel_count_checked_at_load Toy.backend Toy.dataset
              {| other_wav := Toy.mono; vocals_wav := Toy.ramp 4 |} 0
              0%Q 0%Q Toy.mono 44100 "out.wav"%string 8 4 4096 1024)
    as [Hd Hi].
  split.
  - apply Hd. left. vm_compute. discriminate.
  - apply Hi. vm_compute. discriminate.
Defined.



Lemma getitem_exact_length_raises_witness :
  outcome (getitem Toy.backend Toy.dataset
             {| other_wav := Toy.ramp 4; vocals_wav := Toy.ramp 4 |} 0)
  = raise (RuntimeError "random_ expects 'from' to be less than 'to'").
Proof.
  apply (proj1 (getitem_exact_length_raises Toy.backend Toy.dataset
                  {| other_wav := Toy.ramp 4; vocals_wav := Toy.ramp 4 |} 0
                  eq_refl eq_refl eq_refl
                  ltac:(discriminate) ltac:(discriminate))).
  reflexivity.
Defined.

Lemma checkpoint_round_trip_witness :
  exists fs,
    train Toy.backend 1%Q tt [[]; []; []; []] 2 None []
    = ok (state_after Toy.backend (train_init Toy.backend 1%Q tt None)
            [[]; []; []; []] 4, fs)
    /\ torch_load Toy.backend (checkpoint_step_pt 4) fs
       = Some (CheckpointData Toy.backend
                 (snapshot Toy.backend
                    (state_after Toy.backend (train_init Toy.backend 1%Q tt None)
                       [[]; []; []; []] 4)))
    /\ torch_load Toy.backend (checkpoint_step_pt 3) fs = None.
Proof.
  destruct (checkpoint_round_trip Toy.backend 1%Q 7%Q tt tt [[]; []; []; []] 2 []
              ltac:(discriminate)) as (fs & E & H).
  exists fs. split; [exact E|]. split.
  - apply (proj1 (H 4)); [simpl; lia | reflexivity].
  - apply (proj2 (H 3)). simpl. intros [_ Hm]. discriminate.
Defined.

Lemma main_mode_selection_witness :
  main (Toy.args false false) = [PrintMessage "Please specify either --train or --infer"]
  /\ modes_run (main (Toy.args true true)) = 1%nat.
Proof.
  split.
  - apply (proj1 (main_mode_selection (Toy.args false false))); reflexivity.
  - apply (proj2 (main_mode_selection (Toy.args true true))); reflexivity.
Defined.

(** * Further properties of the code *)

(** ** The loss *)

Lemma Qsum_nonneg l : Forall (fun x => 0 <= x)%Q l -> (0 <= Qsum l)%Q.
Proof.
  induction 1 as [|x l Hx H IH]; simpl; [discriminate|]. lra.
Qed.

Lemma Qsum_nonneg_zero l :
  Forall (fun x => 0 <= x)%Q l -> (Qsum l == 0)%Q ->
  Forall (fun x => x == 0)%Q l.
Proof.
  induction 1 as [|x l Hx H IH]; simpl; intros E; constructor.
  - pose proof (Qsum_nonneg l H). lra.
  - apply IH. pose proof (Qsum_nonneg l H). lra.
Qed.

Lemma Qsum_app l1 l2 : (Qsum (l1 ++ l2) == Qsum l1 + Qsum l2)%Q.
Proof.
  induction l1 as [|x l1 IH]; simpl; [ring|]. rewrite IH. ring.
Qed.

Lemma flatten3_map3 (f : Q -> Q) t : flatten3 (map3 f t) = map f (flatten3 t).
Proof.
  unfold flatten3, map3. rewrite concat_map, !map_map. f_equal.
  apply map_ext. intros c. rewrite concat_map. reflexivity.
Qed.

Lemma flatten4_tsquare t :
  flatten4 (tsquare t) = map (fun d => d * d)%Q (flatten4 t).
Proof.
  unfold flatten4, tsquare. rewrite concat_map, !map_map. f_equal.
  apply map_ext. intros s. apply flatten3_map3.
Qed.

Lemma squares_nonneg l : Forall (fun x => 0 <= x)%Q (map (fun d => d * d)%Q l).
Proof.
  rewrite Forall_forall. intros x Hx. apply in_map_iff in Hx as (d & <- & _).
  nra.
Qed.

Lemma all_zero_of_squares l :
  Forall (fun x => x == 0)%Q (map (fun d => d * d)%Q l) ->
  Forall (fun x => x == 0)%Q l.
Proof.
  induction l as [|x l IH]; simpl; intros H; [constructor|].
  inversion H as [|? ? Hx Hl]; subst. constructor; [|apply IH; exact Hl].
  nra.
Qed.

Lemma squares_of_all_zero l :
  Forall (fun x => x == 0)%Q l ->
  Forall (fun x => x == 0)%Q (map (fun d => d * d)%Q l).
Proof.
  induction 1 as [|x l Hx H IH]; simpl; constructor; [|exact IH].
  rewrite Hx. reflexivity.
Qed.

Lemma count_positive {A} (l : list A) :
  l <> [] -> (0 < inject_Z (Z.of_nat (length l)))%Q.
Proof.
  intros H. destruct l as [|x l]; [congruence|].
  change 0%Q with (inject_Z 0). rewrite <- Zlt_Qlt. simpl length. lia.
Qed.

(** The mean of the squares of a tensor with at least one entry is not
    negative, and it is zero exactly when every entry is zero. *)
Lemma tmean_tsquare t :
  flatten4 t <> [] ->
  (0 <= tmean (tsquare t))%Q
  /\ ((tmean (tsquare t) == 0)%Q <-> Forall (fun x => x == 0)%Q (flatten4 t)).
Proof.
  intros Hne. unfold tmean. rewrite flatten4_tsquare, length_map.
  pose proof (count_positive _ Hne) as Hn.
  pose proof (Qsum_nonneg _ (squares_nonneg (flatten4 t))) as Hs.
  set (n := inject_Z (Z.of_nat (length (flatten4 t)))) in *.
  set (s := Qsum (map (fun d => d * d)%Q (flatten4 t))) in *.
  assert (Hnz : ~ (n == 0)%Q) by lra.
  split; [|split].
  - apply Qle_shift_div_l; [exact Hn | lra].
  - intros E. apply all_zero_of_squares. apply Qsum_nonneg_zero.
    + apply squares_nonneg.
    + fold s. assert (Es : (s == s / n * n)%Q) by (field; exact Hnz).
      rewrite Es, E. ring.
  - intros Hz. assert (Es : (s == 0)%Q).
    { unfold s. apply Qsum_zero. apply squares_of_all_zero. exact Hz. }
    rewrite Es. field. exact Hnz.
Qed.

(** X1: when the two differences [pred - target] can be formed under
    broadcasting and have at least one entry each, the loss is returned, is
    not negative, and is zero exactly when every entry of both differences
    is zero, that is when the prediction equals the target everywhere. *)
Theorem loss_fn_zero_iff_exact (pred_mag pred_phase target_mag target_phase : Tensor4)
    (d_mag d_phase : Tensor4) :
  tsub pred_mag target_mag = ok d_mag ->
  tsub pred_phase target_phase = ok d_phase ->
  flatten4 d_mag <> [] -> flatten4 d_phase <> [] ->
  exists loss,
    loss_fn pred_mag pred_phase target_mag target_phase = ok loss
    /\ (0 <= loss)%Q
    /\ ((loss == 0)%Q
        <-> Forall (fun d => d == 0)%Q (flatten4 d_mag)
            /\ Forall (fun d => d == 0)%Q (flatten4 d_phase)).
Proof.
  intros Em Ep Hm Hp. unfold loss_fn. rewrite Em, ebind_ok. cbv zeta.
  rewrite Ep, ebind_ok.
  destruct (tmean_tsquare _ Hm) as [Hm0 Hmz].
  destruct (tmean_tsquare _ Hp) as [Hp0 Hpz].
  eexists. split; [reflexivity|].
  split; [lra|]. split.
  - intros E. split; [apply Hmz | apply Hpz]; lra.
  - intros [Zm Zp]. apply Hmz in Zm. apply Hpz in Zp. lra.
Qed.

(** ** More on the training loop *)

Section TrainingLoop.

Variable B : Backend.

Lemma state_after_snoc st batches n :
  (n < length batches)%nat ->
  state_after B st batches (S n)
  = train_update B (state_after B st batches n) (nth n batches []).
Proof.
  intros H. unfold state_after.
  rewrite (firstn_snoc batches n []) by exact H.
  rewrite fold_left_app. reflexivity.
Qed.

Lemma train_update_fields st batch :
  exists loss,
    step B (train_update B st batch) = step B st + 1
    /\ scheduler_steps B (train_update B st batch) = scheduler_steps B st + 1
    /\ loss_log B (train_update B st batch) = loss_log B st ++ [loss]
    /\ avg_loss B (train_update B st batch)
       = ((avg_loss B st * inject_Z (step B st) + loss)
          / inject_Z (step B st + 1))%Q.
Proof.
  unfold train_update.
  destruct (train_batch B _ _ _ _ _ _ _) as [[[loss m'] o'] s'].
  exists loss. repeat split; reflexivity.
Qed.

(** The invariants of the loop, from any state. *)
Lemma train_invariants st batches n :
  (n <= length batches)%nat ->
  let st' := state_after B st batches n in
  step B st' = step B st + Z.of_nat n
  /\ scheduler_steps B st' = scheduler_steps B st + Z.of_nat n
  /\ length (loss_log B st') = (length (loss_log B st) + n)%nat
  /\ firstn (length (loss_log B st)) (loss_log B st') = loss_log B st
  /\ (0 <= step B st ->
      (avg_loss B st * inject_Z (step B st) == Qsum (loss_log B st))%Q ->
      (avg_loss B st' * inject_Z (step B st') == Qsum (loss_log B st'))%Q).
Proof.
  induction n as [|n IH]; intros Hn st'.
  - unfold st', state_after. cbn [firstn fold_left].
    repeat split; try lia.
    + apply firstn_all.
    + intros _ H. exact H.
  - destruct IH as (Hs & Hsch & Hlen & Hpre & Havg); [lia|].
    unfold st'. rewrite state_after_snoc by lia.
    destruct (train_update_fields (state_after B st batches n) (nth n batches []))
      as (loss & Us & Usch & Ulog & Uavg).
    rewrite Us, Usch, Ulog, Uavg.
    repeat split; try lia.
    + rewrite length_app, Hlen. simpl. lia.
    + rewrite firstn_app, Hpre.
      replace (length (loss_log B st) - length (loss_log B (state_after B st batches n)))%nat
        with 0%nat by lia.
      apply app_nil_r.
    + intros H0 Hinv. specialize (Havg H0 Hinv).
      rewrite Qsum_app. simpl. rewrite <- Havg.
      assert (Hnz : ~ (inject_Z (step B (state_after B st batches n) + 1) == 0)%Q).
      { change 0%Q with (inject_Z 0). rewrite inject_Z_injective. lia. }
      field. exact Hnz.
Qed.

(** X2: in a run from scratch, after [n] batches the step counter is [n],
    the loss history has [n] entries, and the running average times [n] is
    the sum of the history: the average is the arithmetic mean of the losses
    so far. *)
Theorem running_average_is_mean (model0 : Params B) (optimizer0 : OptState B)
    (batches : list (list (Tensor3 * Tensor3))) (n : nat) :
  (n <= length batches)%nat ->
  let st := state_after B (train_init B model0 optimizer0 None) batches n in
  step B st = Z.of_nat n
  /\ length (loss_log B st) = n
  /\ (avg_loss B st * inject_Z (Z.of_nat n) == Qsum (loss_log B st))%Q.
Proof.
  intros Hn st.
  destruct (train_invariants (train_init B model0 optimizer0 None) batches n Hn)
    as (Hs & _ & Hlen & _ & Havg).
  fold st in Hs, Hlen, Havg. cbn in Hs, Hlen.
  split; [exact Hs|]. split; [exact Hlen|].
  rewrite <- Hs. apply Havg; [cbn; lia | cbn; ring].
Qed.

(** X3: a run resumed from a checkpoint counts its steps on from the
    checkpoint's step and appends to the checkpoint's loss history, but its
    scheduler step count starts again at zero: after [n] batches the step
    counter is [ck_step + n] and the scheduler has been stepped [n]
    times. *)
Theorem resume_restarts_scheduler (model1 : Params B) (optimizer1 : OptState B)
    (ck : Checkpoint B) (batches : list (list (Tensor3 * Tensor3))) (n : nat) :
  (n <= length batches)%nat ->
  let st := state_after B (train_init B model1 optimizer1 (Some ck)) batches n in
  step B st = ck_step B ck + Z.of_nat n
  /\ scheduler_steps B st = Z.of_nat n
  /\ length (loss_log B st) = (length (ck_loss_log B ck) + n)%nat
  /\ firstn (length (ck_loss_log B ck)) (loss_log B st) = ck_loss_log B ck.
Proof.
  intros Hn st.
  destruct (train_invariants (train_init B model1 optimizer1 (Some ck)) batches n Hn)
    as (Hs & Hsch & Hlen & Hpre & _).
  fold st in Hs, Hsch, Hlen, Hpre. cbn in Hs, Hsch, Hlen, Hpre.
  repeat split; assumption.
Qed.

(** X4: a run resumed from a checkpoint whose step is not negative, with
    [checkpoint_steps <> 0], does not raise; it writes
    [checkpoint_step_M.pt] exactly for the multiples [M] of
    [checkpoint_steps] with [ck_step < M <= ck_step + number of batches],
    each holding the state after [M - ck_step] further batches, and leaves
    every other checkpoint file as it was. *)
Theorem resumed_run_checkpoints (model1 : Params B) (optimizer1 : OptState B)
    (ck : Checkpoint B) (batches : list (list (Tensor3 * Tensor3)))
    (cs : Z) (fs0 : Files B) :
  cs <> 0 -> 0 <= ck_step B ck ->
  let start := train_init B model1 optimizer1 (Some ck) in
  exists fs,
    train B model1 optimizer1 batches cs (Some ck) fs0
    = ok (state_after B start batches (length batches), fs)
    /\ forall M : Z,
         torch_load B (checkpoint_step_pt M) fs
         = if (ck_step B ck <? M)
              && (M <=? ck_step B ck + Z.of_nat (length batches))
              && (M mod cs =? 0)
           then Some (CheckpointData B
                  (snapshot B (state_after B start batches
                                 (Z.to_nat (M - ck_step B ck)))))
           else torch_load B (checkpoint_step_pt M) fs0.
Proof.
  intros Hcs Hstep start. unfold train. fold start.
  rewrite train_loop_run by (try exact Hcs; exact Hstep).
  rewrite ebind_ok. cbn [fst snd].
  eexists. split; [reflexivity|].
  intros M. unfold torch_save. cbn [torch_load file_eqb].
  rewrite torch_load_checkpoint. reflexivity.
Qed.

(** X5: at the end of a run with [checkpoint_steps <> 0] that starts from
    scratch or from a checkpoint whose step is not negative, [loss_log.pt]
    holds the whole loss history of the final state, one entry per batch
    after the entries the run started with, and the history of every
    earlier state is a prefix of it. *)
Theorem final_loss_log_saved (model0 : Params B) (optimizer0 : OptState B)
    (checkpoint : option (Checkpoint B))
    (batches : list (list (Tensor3 * Tensor3))) (cs : Z) (fs0 : Files B) :
  cs <> 0 ->
  let start := train_init B model0 optimizer0 checkpoint in
  0 <= step B start ->
  exists st fs,
    train B model0 optimizer0 batches cs checkpoint fs0 = ok (st, fs)
    /\ torch_load B loss_log_pt fs = Some (LossLogData B (loss_log B st))
    /\ length (loss_log B st)
       = (length (loss_log B start) + length batches)%nat
    /\ forall n, (n <= length batches)%nat ->
         loss_log B (state_after B start batches n)
         = firstn (length (loss_log B start) + n) (loss_log B st).
Proof.
  intros Hcs start Hstep. unfold train. fold start.
  rewrite train_loop_run by (try exact Hcs; exact Hstep).
  rewrite ebind_ok. cbn [fst snd].
  eexists. eexists. split; [reflexivity|].
  split; [reflexivity|].
  destruct (train_invariants start batches (length batches) (le_n _))
    as (_ & _ & Hlen & _ & _).
  split; [exact Hlen|].
  intros n Hn.
  destruct (train_invariants start batches n Hn) as (_ & _ & Hlen_n & _ & _).
  assert (Hrest : state_after B start batches (length batches)
                  = state_after B (state_after B start batches n)
                      (skipn n batches) (length (skipn n batches))).
  { unfold state_after. rewrite !firstn_all.
    rewrite <- fold_left_app, firstn_skipn. reflexivity. }
  rewrite Hrest.
  destruct (train_invariants (state_after B start batches n) (skipn n batches)
              (length (skipn n batches)) (le_n _)) as (_ & _ & _ & Hpre & _).
  rewrite <- Hlen_n. symmetry. exact Hpre.
Qed.

(** X6: [train] raises [ZeroDivisionError] on its first batch when
    [checkpoint_steps] is zero (the remainder of line 198) or when the step
    counter restored from the checkpoint is -1 (the division of line
    192). *)
Theorem zero_checkpoint_steps_raises (model0 : Params B) (optimizer0 : OptState B)
    (checkpoint : option (Checkpoint B))
    (batch : list (Tensor3 * Tensor3))
    (rest : list (list (Tensor3 * Tensor3))) (cs : Z) (fs0 : Files B) :
  cs = 0 \/ step B (train_init B model0 optimizer0 checkpoint) = -1 ->
  train_iteration B cs (train_init B model0 optimizer0 checkpoint, fs0) batch
  = raise ZeroDivisionError
  /\ train B model0 optimizer0 (batch :: rest) cs checkpoint fs0
     = raise ZeroDivisionError.
Proof.
  intros H.
  assert (E : train_iteration B cs
                (train_init B model0 optimizer0 checkpoint, fs0) batch
              = raise ZeroDivisionError).
  { unfold train_iteration. cbn [fst snd].
    destruct (step B (train_init B model0 optimizer0 checkpoint) + 1 =? 0) eqn:E0;
      [reflexivity|].
    destruct H as [-> | H]; [reflexivity|].
    apply Z.eqb_neq in E0. lia. }
  split; [exact E|].
  unfold train. cbn [foldM]. rewrite E. reflexivity.
Qed.

End TrainingLoop.

(** ** More on inference *)

Lemma clamp_bounds lo hi x : (lo <= hi)%Q -> (lo <= clamp lo hi x <= hi)%Q.
Proof.
  intros H. unfold clamp. split.
  - apply Q.min_glb; [apply Q.le_max_r | exact H].
  - apply Q.le_min_r.
Qed.

Lemma no_save_in_chunks (l : list Z) :
  filter is_save (flat_map (fun _ => chunk_events) l) = [].
Proof. induction l as [|i l IH]; simpl; [reflexivity | exact IH]. Qed.

Lemma rfoldM_ext {A S} (f g : S -> A -> Run S) l s :
  (forall s a, f s a = g s a) -> rfoldM f l s = rfoldM g l s.
Proof.
  intros H. revert s. induction l as [|a l IH]; intros s; simpl; [reflexivity|].
  rewrite H. destruct (g s a) as [log [e|s']]; simpl; [reflexivity|].
  rewrite IH. reflexivity.
Qed.

Lemma zeros_like_rect T (t : Tensor2) :
  rect T t -> zeros_like t = repeat (repeat 0%Q T) (length t).
Proof.
  unfold zeros_like. induction 1 as [|r t Hr H IH]; simpl; [reflexivity|].
  rewrite IH. f_equal. rewrite <- Hr.
  clear. induction r as [|x r IH]; simpl; [reflexivity | rewrite IH; reflexivity].
Qed.

(** What [separate_chunk] returns, with the forward pass entering only
    through the magnitude it predicts. *)
Lemma separate_chunk_value B (params : Params B) nfft hop C chunk :
  separate_chunk B params nfft hop C chunk
  = (chunk_events,
     ok (let spec := stft B nfft hop chunk in
         let mag := map3 (cabs B) spec in
         let x := fst (fst (normalize B mag)) in
         istft B nfft hop
           (polar B (denormalize (zip3 Qminus x (fst (forward B params x)))
                                 (mean12 mag) (std12 B mag))
                    (map3 (cangle B) spec))
           C)).
Proof.
  unfold separate_chunk, normalize. cbv beta iota zeta. cbn [fst].
  destruct (forward B params _) as [pred_mag pred_phase]. reflexivity.
Qed.

(** X7: the phase the network predicts never reaches the output: two
    forward passes that predict the same magnitude give the same run of
    [inference], whatever phases they predict. *)
Theorem predicted_phase_unused (B : Backend)
    (f : Params B -> Tensor3 -> Tensor3 * Tensor3)
    (model0 ckm : Params B) (input : Tensor2) (sr : Z) (path : string)
    (C ov nfft hop : Z) :
  (forall p x, fst (f p x) = fst (forward B p x)) ->
  inference (with_forward B f) model0 ckm input sr path C ov nfft hop
  = inference B model0 ckm input sr path C ov nfft hop.
Proof.
  intros Hf.
  assert (Hsep : forall params chunk,
    separate_chunk (with_forward B f) params nfft hop C chunk
    = separate_chunk B params nfft hop C chunk).
  { intros params chunk.
    rewrite (separate_chunk_value (with_forward B f)), (separate_chunk_value B).
    cbv zeta.
    change (forward (with_forward B f) params) with (f params).
    rewrite Hf. reflexivity. }
  assert (Hit : forall params cfl buf i,
    chunk_iteration (with_forward B f) params input C cfl nfft hop buf i
    = chunk_iteration B params input C cfl nfft hop buf i).
  { intros params cfl buf i. unfold chunk_iteration. rewrite Hsep. reflexivity. }
  unfold inference.
  change (load_state_dict (with_forward B f)) with (load_state_dict B).
  rewrite ?rbind_emit. cbv zeta. rewrite ?rbind_emit.
  destruct (negb (shape0 input =? 2)); [reflexivity|].
  destruct (floordiv (shape1 input - ov) (C - ov)) as [e|num_chunks];
    [reflexivity|].
  fold (@ok Z num_chunks). rewrite !rbind_lift_ok.
  destruct (py_range 0 (shape1 input - C + 1) (C - ov)) as [e|starts];
    [reflexivity|].
  fold (@ok (list Z) starts). rewrite !rbind_lift_ok.
  rewrite (rfoldM_ext _ (chunk_iteration B (load_state_dict B model0 ckm) input C
                           (ov / 2) nfft hop))
    by (intros s a; apply Hit).
  reflexivity.
Qed.

(** X8: when the overlap equals the chunk size, [inference] raises
    [ZeroDivisionError] at line 230, after the two files are loaded; no
    chunk is processed and nothing is saved. *)
Theorem equal_overlap_raises (B : Backend) (model0 ckm : Params B)
    (input : Tensor2) (sr : Z) (path : string) (C nfft hop : Z) :
  length input = 2%nat ->
  inference B model0 ckm input sr path C C nfft hop
  = ([EvLoadCheckpoint; EvLoadAudio "input_wav"], raise ZeroDivisionError).
Proof.
  intros Hch. unfold inference.
  rewrite rbind_emit. cbv zeta. rewrite rbind_emit.
  unfold shape0. rewrite Hch.
  cbn [Z.of_nat Z.eqb Pos.eqb Pos.of_succ_nat Pos.succ negb].
  unfold floordiv. rewrite Z.sub_diag. reflexivity.
Qed.

Lemma linspace_first a b n l :
  linspace a b n = ok l -> 0 < n -> (nth 0 l 0 == a)%Q.
Proof.
  intros H Hn. destruct (Z.eq_dec n 1) as [->|Hne].
  - injection H as <-. reflexivity.
  - rewrite (nth_linspace _ _ _ _ 0%nat H Hne) by lia.
    change (inject_Z (Z.of_nat 0)) with 0%Q. ring.
Qed.

Lemma linspace_last a b n l :
  linspace a b n = ok l -> 2 <= n -> (nth (Z.to_nat (n - 1)) l 0 == b)%Q.
Proof.
  intros H Hn.
  rewrite (nth_linspace _ _ _ _ (Z.to_nat (n - 1)) H) by lia.
  rewrite Z2Nat.id by lia.
  assert (Hnz : ~ (inject_Z (n - 1) == 0)%Q).
  { change 0%Q with (inject_Z 0). rewrite inject_Z_injective. lia. }
  field. exact Hnz.
Qed.

Section InferenceOutput.

Variable B : Backend.

Hypothesis stft_channels :
  forall n h w, length (stft B n h w) = length w.
Hypothesis forward_channels :
  forall p x, length (fst (forward B p x)) = length x.
Hypothesis istft_shape :
  forall n h s len, 0 <= len ->
    length (istft B n h s len) = length s
    /\ rect (Z.to_nat len) (istft B n h s len).

Local Notation "'assuming' L" :=
  (L B stft_channels forward_channels istft_shape)
  (at level 10, L at level 9, only parsing).

(** X9: on a stereo input with [0 <= overlap < chunk_size], when the
    spectrogram of every chunk has at least two entries per channel (with
    one, torch's std and with it the whole output is NaN), [inference]
    returns and saves, once and as its last action, a waveform of the
    input's shape whose samples all lie in [-1, 1]. *)
Theorem output_shape_and_clipping (model0 ckm : Params B) (nfft hop : Z)
    (input : Tensor2) (sr : Z) (path : string) (C ov : Z) (T : nat) :
  length input = 2%nat -> rect T input -> 0 <= ov < C ->
  (forall i, In i (chunk_starts (Z.of_nat T) C ov) ->
     Forall (fun c => (2 <= length (concat c))%nat)
            (stft B nfft hop (map (fun r => py_slice r i (Some (i + C))) input))) ->
  let run := inference B model0 ckm input sr path C ov nfft hop in
  exists out,
    outcome run = ok out
    /\ length out = 2%nat /\ rect T out
    /\ (forall c p, (-1 <= sample out c p <= 1)%Q)
    /\ filter is_save (trace run) = [EvSaveAudio path out sr]
    /\ last (trace run) EvLoadCheckpoint = EvSaveAudio path out sr.
Proof.
  intros Hch Hrect Hov _ run.
  destruct (half_overlap ov C Hov) as [Hh HhC].
  destruct (assuming inference_run model0 ckm nfft hop input sr path C ov T)
    as (fi & fo & Efi & Efo & Erun); try assumption.
  cbv zeta in Erun. fold run in Erun.
  destruct (linspace_ok 0 1 (ov / 2)) as (fi' & Efi' & Lfi); [lia|].
  destruct (linspace_ok 1 0 (ov / 2)) as (fo' & Efo' & Lfo); [lia|].
  assert (fi' = fi) as -> by (unfold ok in *; congruence).
  assert (fo' = fo) as -> by (unfold ok in *; congruence).
  destruct (zeros_like_shape T input Hrect) as [Hz Lz].
  destruct (assuming buffer_after_shape (load_state_dict B model0 ckm) nfft hop
              input C (ov / 2) fi fo T (chunk_starts (Z.of_nat T) C ov)
              (zeros_like input)) as [Hb Lb]; try assumption;
    [lia | apply chunk_starts_inside; lia |].
  eexists. split; [rewrite Erun; reflexivity|].
  split; [unfold clamp_tensor; rewrite length_map; congruence|].
  split.
  { unfold clamp_tensor. eapply rect_map; [|exact Hb].
    intros r Hr. rewrite length_map. exact Hr. }
  split.
  { intros c p. rewrite sample_clamp by (split; discriminate).
    apply clamp_bounds. discriminate. }
  rewrite Erun. unfold trace. cbn [fst filter is_save].
  rewrite filter_app, no_save_in_chunks. split; [reflexivity|].
  change (EvLoadCheckpoint :: EvLoadAudio "input_wav"
           :: ?l ++ [?e]) with (([EvLoadCheckpoint; EvLoadAudio "input_wav"] ++ l) ++ [e]).
  apply last_last.
Qed.

Lemma buffer_after_untouched_before (params : Params B) (nfft hop : Z)
    input C cfl fi fo T starts buf c p :
  0 <= cfl <= C ->
  length fi = Z.to_nat cfl -> length fo = Z.to_nat cfl ->
  Forall (fun i => 0 <= i /\ i + C <= Z.of_nat T /\ Z.of_nat p < i) starts ->
  rect T buf -> length buf = length input -> (c < length input)%nat ->
  sample (buffer_after B params nfft hop C cfl fi fo input starts buf) c p
  = sample buf c p.
Proof.
  intros Hc Lfi Lfo Hs. revert buf.
  induction Hs as [|i starts (Hi & HiT & Hp) Hs IH]; intros buf Hb Hlen Hcn.
  - reflexivity.
  - destruct (assuming buffer_step_shape params nfft hop input C cfl fi fo T buf i)
      as [Hb' Hlen']; try assumption.
    unfold buffer_after. cbn [fold_left].
    fold (buffer_after B params nfft hop C cfl fi fo input starts
            (map2 (oa_row (Z.to_nat i) (Z.to_nat C) (Z.to_nat cfl) fi fo (0 <? i))
                  buf (reconstructed B params nfft hop C input i))).
    rewrite IH by assumption.
    rewrite (assuming sample_step params nfft hop input C cfl fi fo T)
      by (try assumption; lia).
    cbv zeta. cmp_nat; reflexivity.
Qed.

(** X10: in the saved waveform, the samples of chunk [j] from its offset
    [overlap / 2] up to the start of the next chunk (up to its own end, for
    the last chunk) are the chunk's reconstruction, clamped: no other chunk
    contributes to them. *)
Theorem chunk_interior_is_reconstruction (model0 ckm : Params B) (nfft hop : Z)
    (input : Tensor2) (sr : Z) (path : string) (C ov : Z) (T j c p : nat) :
  length input = 2%nat -> rect T input -> 0 <= ov < C ->
  let starts := chunk_starts (Z.of_nat T) C ov in
  let i := nth j starts 0 in
  (j < length starts)%nat -> (c < 2)%nat ->
  i + ov / 2 <= Z.of_nat p < i + C ->
  ((S j < length starts)%nat -> Z.of_nat p < i + (C - ov)) ->
  exists out,
    outcome (inference B model0 ckm input sr path C ov nfft hop) = ok out
    /\ (sample out c p
        == clamp (-1) 1
             (sample (reconstructed B (load_state_dict B model0 ckm) nfft hop C
                        input i) c (p - Z.to_nat i)))%Q.
Proof.
  intros Hch Hrect Hov starts i Hj Hc Hp Hnext. subst i starts.
  set (starts := chunk_starts (Z.of_nat T) C ov) in *.
  set (i := nth j starts 0) in *.
  set (params := load_state_dict B model0 ckm).
  destruct (half_overlap ov C Hov) as [Hh HhC].
  destruct (assuming inference_run model0 ckm nfft hop input sr path C ov T)
    as (fi & fo & Efi & Efo & Erun); try assumption.
  cbv zeta in Erun. fold starts params in Erun.
  destruct (linspace_ok 0 1 (ov / 2)) as (fi' & Efi' & Lfi); [lia|].
  destruct (linspace_ok 1 0 (ov / 2)) as (fo' & Efo' & Lfo); [lia|].
  assert (fi' = fi) as -> by (unfold ok in *; congruence).
  assert (fo' = fo) as -> by (unfold ok in *; congruence).
  destruct (zeros_like_shape T input Hrect) as [Hz Lz].
  assert (Hin : Forall (fun i => 0 <= i /\ i + C <= Z.of_nat T) starts)
    by (apply chunk_starts_inside; lia).
  assert (Ei : i = Z.of_nat j * (C - ov))
    by (apply nth_chunk_starts; [lia | exact Hj]).
  assert (Hi : 0 <= i /\ i + C <= Z.of_nat T).
  { rewrite Forall_forall in Hin. apply Hin. apply nth_In. exact Hj. }
  eexists. split; [rewrite Erun; reflexivity|].
  rewrite sample_clamp by (split; discriminate).
  assert (Hsplit : starts = firstn j starts ++ [i] ++ skipn (S j) starts).
  { rewrite <- (firstn_skipn (S j) starts) at 1.
    rewrite (firstn_snoc starts j 0) by exact Hj.
    rewrite <- app_assoc. reflexivity. }
  assert (Hlater : Forall (fun i' => 0 <= i' /\ i' + C <= Z.of_nat T
                                     /\ Z.of_nat p < i') (skipn (S j) starts)).
  { rewrite Forall_forall. intros i' Hi'.
    assert (Hi'in : In i' starts).
    { rewrite <- (firstn_skipn (S j) starts). apply in_or_app. right. exact Hi'. }
    rewrite Forall_forall in Hin. destruct (Hin i' Hi'in) as [H0 HT].
    split; [exact H0|]. split; [exact HT|].
    unfold starts in Hi'.
    rewrite (proj2 (chunk_starts_eq (Z.of_nat T) C ov (proj2 Hov))) in Hi'.
    rewrite skipn_map, skipn_seq in Hi'.
    apply in_map_iff in Hi' as (k & <- & Hk). apply in_seq in Hk.
    assert (HSj : (S j < length starts)%nat).
    { unfold starts.
      rewrite (proj2 (chunk_starts_eq (Z.of_nat T) C ov (proj2 Hov))).
      rewrite length_map, length_seq. lia. }
    specialize (Hnext HSj). nia. }
  destruct (assuming buffer_after_shape params nfft hop input C (ov / 2) fi fo T
              (firstn j starts) (zeros_like input)) as [Hb Lb];
    try assumption; [lia | apply Forall_firstn_of; exact Hin |].
  destruct (assuming buffer_step_shape params nfft hop input C (ov / 2) fi fo T
              (buffer_after B params nfft hop C (ov / 2) fi fo input
                 (firstn j starts) (zeros_like input)) i) as [Hb' Lb'];
    try assumption; try lia.
  rewrite Hsplit at 1. unfold buffer_after. rewrite !fold_left_app.
  cbn [fold_left].
  fold (buffer_after B params nfft hop C (ov / 2) fi fo input (firstn j starts)
          (zeros_like input)).
  match goal with
  | |- context [fold_left ?f (skipn (S j) starts) ?b] =>
      change (fold_left f (skipn (S j) starts) b)
        with (buffer_after B params nfft hop C (ov / 2) fi fo input
                (skipn (S j) starts) b)
  end.
  rewrite (buffer_after_untouched_before params nfft hop input C (ov / 2) fi fo T)
    by (try assumption; lia).
  rewrite (assuming sample_step params nfft hop input C (ov / 2) fi fo T)
    by (try assumption; lia).
  cbv zeta. cmp_nat; reflexivity.
Qed.

(** X11: in the cross-fade of a chunk that starts at [i > 0], the first
    sample keeps the buffer's content (the ramps start at weights 1 and 0),
    and with [overlap / 2 >= 2] the last cross-faded sample is the new
    chunk's alone (they end at 0 and 1). *)
Theorem crossfade_endpoints (params : Params B) (nfft hop : Z)
    (input buf : Tensor2) (C ov i : Z) (T c : nat) :
  length input = 2%nat -> rect T buf -> length buf = 2%nat ->
  0 <= ov < C -> 0 < i -> i + C <= Z.of_nat T -> (c < 2)%nat ->
  let cfl := ov / 2 in
  exists cur,
    outcome (chunk_iteration B params input C cfl nfft hop buf i) = ok cur
    /\ (1 <= cfl -> (sample cur c (Z.to_nat i) == sample buf c (Z.to_nat i))%Q)
    /\ (2 <= cfl ->
        (sample cur c (Z.to_nat (i + cfl - 1))
         == sample (reconstructed B params nfft hop C input i) c
                   (Z.to_nat (cfl - 1)))%Q).
Proof.
  intros Hch Hb Lb Hov Hi HT Hc cfl.
  destruct (half_overlap ov C Hov) as [Hh HhC]. fold cfl in Hh, HhC.
  destruct (linspace_ok 0 1 cfl) as (fi & Efi & Lfi); [lia|].
  destruct (linspace_ok 1 0 cfl) as (fo & Efo & Lfo); [lia|].
  rewrite chunk_iteration_run. unfold outcome. cbn [snd].
  destruct (assuming reconstructed_shape params nfft hop C input i) as [Lr Rr];
    [lia|].
  rewrite (overlap_add_ok i C cfl T fi fo) by (try assumption; lia).
  eexists. split; [reflexivity|].
  split.
  - intros H1.
    rewrite (assuming sample_step params nfft hop input C cfl fi fo T)
      by (try assumption; lia).
    cbv zeta. rewrite (proj2 (Z.ltb_lt 0 i)) by lia.
    cmp_nat. rewrite Nat.sub_diag.
    rewrite (linspace_first _ _ _ _ Efi), (linspace_first _ _ _ _ Efo) by lia.
    ring.
  - intros H2.
    rewrite (assuming sample_step params nfft hop input C cfl fi fo T)
      by (try assumption; lia).
    cbv zeta. rewrite (proj2 (Z.ltb_lt 0 i)) by lia.
    cmp_nat.
    replace (Z.to_nat (i + cfl - 1) - Z.to_nat i)%nat with (Z.to_nat (cfl - 1))
      by lia.
    rewrite (linspace_last _ _ _ _ Efi), (linspace_last _ _ _ _ Efo) by lia.
    ring.
Qed.

Lemma buffer_after_ext (params : Params B) (nfft hop : Z)
    input1 input2 C cfl fi fo starts buf :
  (forall i, In i starts ->
     reconstructed B params nfft hop C input1 i
     = reconstructed B params nfft hop C input2 i) ->
  buffer_after B params nfft hop C cfl fi fo input1 starts buf
  = buffer_after B params nfft hop C cfl fi fo input2 starts buf.
Proof.
  revert buf. induction starts as [|i starts IH]; intros buf H; [reflexivity|].
  unfold buffer_after. cbn [fold_left].
  rewrite (H i (or_introl eq_refl)).
  apply IH. intros i' Hi'. apply H. right. exact Hi'.
Qed.

(** X12: the samples of the input after the end of the last chunk do not
    influence the run: two stereo inputs of one length that agree up to the
    end of the last chunk give the same events and the same saved
    waveform. *)
Theorem trailing_samples_ignored (model0 ckm : Params B) (nfft hop : Z)
    (input1 input2 : Tensor2) (sr : Z) (path : string) (C ov : Z) (T : nat) :
  length input1 = 2%nat -> rect T input1 ->
  length input2 = 2%nat -> rect T input2 ->
  0 <= ov < C -> C <= Z.of_nat T ->
  let n := (Z.of_nat T - ov) / (C - ov) in
  (forall c p, Z.of_nat p < (n - 1) * (C - ov) + C ->
     sample input1 c p = sample input2 c p) ->
  inference B model0 ckm input1 sr path C ov nfft hop
  = inference B model0 ckm input2 sr path C ov nfft hop.
Proof.
  intros L1 R1 L2 R2 Hov HT n Hagree.
  destruct (assuming inference_run model0 ckm nfft hop input1 sr path C ov T)
    as (fi & fo & Efi & Efo & E1); try assumption.
  destruct (assuming inference_run model0 ckm nfft hop input2 sr path C ov T)
    as (fi' & fo' & Efi' & Efo' & E2); try assumption.
  assert (fi' = fi) as -> by (unfold ok in *; congruence).
  assert (fo' = fo) as -> by (unfold ok in *; congruence).
  cbv zeta in E1, E2. rewrite E1, E2.
  assert (Hz : zeros_like input1 = zeros_like input2)
    by (rewrite (zeros_like_rect T input1 R1), (zeros_like_rect T input2 R2);
        congruence).
  assert (Hbuf :
    buffer_after B (load_state_dict B model0 ckm) nfft hop C (ov / 2) fi fo input1
      (chunk_starts (Z.of_nat T) C ov) (zeros_like input1)
    = buffer_after B (load_state_dict B model0 ckm) nfft hop C (ov / 2) fi fo input2
        (chunk_starts (Z.of_nat T) C ov) (zeros_like input2)).
  { rewrite Hz. apply buffer_after_ext. intros i Hi.
    unfold reconstructed.
    assert (Hn : 0 <= n) by (apply Z.div_pos; lia).
    assert (Hbound : 0 <= i /\ i + C <= (n - 1) * (C - ov) + C
                     /\ i + C <= Z.of_nat T).
    { pose proof (chunk_starts_inside (Z.of_nat T) C ov (proj2 Hov)) as Hin.
      rewrite Forall_forall in Hin. destruct (Hin i Hi) as [H0 H1].
      rewrite (proj2 (chunk_starts_eq (Z.of_nat T) C ov (proj2 Hov))) in Hi.
      apply in_map_iff in Hi as (k & <- & Hk). apply in_seq in Hk.
      rewrite range_len_chunks in Hk by lia. fold n in Hk. nia. }
    assert (Hrow : forall a b,
      length a = T -> length b = T ->
      (forall p, Z.of_nat p < (n - 1) * (C - ov) + C ->
         nth p a 0%Q = nth p b 0%Q) ->
      py_slice a i (Some (i + C)) = py_slice b i (Some (i + C))).
    { intros a b La Lb Hab.
      rewrite !py_slice_in by lia.
      apply (nth_ext _ _ 0%Q 0%Q).
      - rewrite !length_firstn, !length_skipn. lia.
      - intros k Hk. rewrite length_firstn, length_skipn in Hk.
        rewrite !nth_firstn, !nth_skipn.
        destruct (k <? Z.to_nat C)%nat; [|reflexivity].
        apply Hab. lia. }
    destruct input1 as [|a0 [|a1 [|? ?]]]; try discriminate.
    destruct input2 as [|b0 [|b1 [|? ?]]]; try discriminate.
    inversion R1 as [|? ? La0 R1']; inversion R1' as [|? ? La1 _]; subst.
    inversion R2 as [|? ? Lb0 R2']; inversion R2' as [|? ? Lb1 _]; subst.
    cbn [map].
    rewrite (Hrow a0 b0 eq_refl Lb0 (fun p Hp => Hagree 0%nat p Hp)).
    rewrite (Hrow a1 b1 La1 Lb1 (fun p Hp => Hagree 1%nat p Hp)).
    reflexivity. }
  rewrite Hbuf. reflexivity.
Qed.

(** The two facts the chunk schedule rests on, for the saved waveform and
    for two inputs. *)
Lemma saved_interior (model0 ckm : Params B) (nfft hop : Z)
    (input : Tensor2) (sr : Z) (path : string) (C ov : Z) (T j c p : nat) :
  length input = 2%nat -> rect T input -> 0 <= ov < C ->
  let starts := chunk_starts (Z.of_nat T) C ov in
  let i := nth j starts 0 in
  (j < length starts)%nat -> (c < 2)%nat ->
  i + ov / 2 <= Z.of_nat p < i + C ->
  ((S j < length starts)%nat -> Z.of_nat p < i + (C - ov)) ->
  exists out,
    outcome (inference B model0 ckm input sr path C ov nfft hop) = ok out
    /\ (sample out c p
        == clamp (-1) 1
             (sample (reconstructed B (load_state_dict B model0 ckm) nfft hop C
                        input i) c (p - Z.to_nat i)))%Q.
Proof.
  intros Hch Hrect Hov starts i Hj Hc Hp Hnext. subst i starts.
  set (starts := chunk_starts (Z.of_nat T) C ov) in *.
  set (i := nth j starts 0) in *.
  set (params := load_state_dict B model0 ckm).
  destruct (half_overlap ov C Hov) as [Hh HhC].
  destruct (assuming inference_run model0 ckm nfft hop input sr path C ov T)
    as (fi & fo & Efi & Efo & Erun); try assumption.
  cbv zeta in Erun. fold starts params in Erun.
  destruct (linspace_ok 0 1 (ov / 2)) as (fi' & Efi' & Lfi); [lia|].
  destruct (linspace_ok 1 0 (ov / 2)) as (fo' & Efo' & Lfo); [lia|].
  assert (fi' = fi) as -> by (unfold ok in *; congruence).
  assert (fo' = fo) as -> by (unfold ok in *; congruence).
  destruct (zeros_like_shape T input Hrect) as [Hz Lz].
  assert (Hin : Forall (fun i => 0 <= i /\ i + C <= Z.of_nat T) starts)
    by (apply chunk_starts_inside; lia).
  assert (Ei : i = Z.of_nat j * (C - ov))
    by (apply nth_chunk_starts; [lia | exact Hj]).
  assert (Hi : 0 <= i /\ i + C <= Z.of_nat T).
  { rewrite Forall_forall in Hin. apply Hin. apply nth_In. exact Hj. }
  eexists. split; [rewrite Erun; reflexivity|].
  rewrite sample_clamp by (split; discriminate).
  assert (Hsplit : starts = firstn j starts ++ [i] ++ skipn (S j) starts).
  { rewrite <- (firstn_skipn (S j) starts) at 1.
    rewrite (firstn_snoc starts j 0) by exact Hj.
    rewrite <- app_assoc. reflexivity. }
  assert (Hlater : Forall (fun i' => 0 <= i' /\ i' + C <= Z.of_nat T
                                     /\ Z.of_nat p < i') (skipn (S j) starts)).
  { rewrite Forall_forall. intros i' Hi'.
    assert (Hi'in : In i' starts).
    { rewrite <- (firstn_skipn (S j) starts). apply in_or_app. right. exact Hi'. }
    rewrite Forall_forall in Hin. destruct (Hin i' Hi'in) as [H0 HT].
    split; [exact H0|]. split; [exact HT|].
    unfold starts in Hi'.
    rewrite (proj2 (chunk_starts_eq (Z.of_nat T) C ov (proj2 Hov))) in Hi'.
    rewrite skipn_map, skipn_seq in Hi'.
    apply in_map_iff in Hi' as (k & <- & Hk). apply in_seq in Hk.
    assert (HSj : (S j < length starts)%nat).
    { unfold starts.
      rewrite (proj2 (chunk_starts_eq (Z.of_nat T) C ov (proj2 Hov))).
      rewrite length_map, length_seq. lia. }
    specialize (Hnext HSj). nia. }
  destruct (assuming buffer_after_shape params nfft hop input C (ov / 2) fi fo T
              (firstn j starts) (zeros_like input)) as [Hb Lb];
    try assumption; [lia | apply Forall_firstn_of; exact Hin |].
  destruct (assuming buffer_step_shape params nfft hop input C (ov / 2) fi fo T
              (buffer_after B params nfft hop C (ov / 2) fi fo input
                 (firstn j starts) (zeros_like input)) i) as [Hb' Lb'];
    try assumption; try lia.
  rewrite Hsplit at 1. unfold buffer_after. rewrite !fold_left_app.
  cbn [fold_left].
  fold (buffer_after B params nfft hop C (ov / 2) fi fo input (firstn j starts)
          (zeros_like input)).
  match goal with
  | |- context [fold_left ?f (skipn (S j) starts) ?b] =>
      change (fold_left f (skipn (S j) starts) b)
        with (buffer_after B params nfft hop C (ov / 2) fi fo input
                (skipn (S j) starts) b)
  end.
  rewrite (buffer_after_untouched_before params nfft hop input C (ov / 2) fi fo T)
    by (try assumption; lia).
  rewrite (assuming sample_step params nfft hop input C (ov / 2) fi fo T)
    by (try assumption; lia).
  cbv zeta. cmp_nat; reflexivity.
Qed.

Lemma runs_agree (model0 ckm : Params B) (nfft hop : Z)
    (input1 input2 : Tensor2) (sr : Z) (path : string) (C ov : Z) (T : nat) :
  length input1 = 2%nat -> rect T input1 ->
  length input2 = 2%nat -> rect T input2 ->
  0 <= ov < C -> C <= Z.of_nat T ->
  let n := (Z.of_nat T - ov) / (C - ov) in
  (forall c p, Z.of_nat p < (n - 1) * (C - ov) + C ->
     sample input1 c p = sample input2 c p) ->
  inference B model0 ckm input1 sr path C ov nfft hop
  = inference B model0 ckm input2 sr path C ov nfft hop.
Proof.
  intros L1 R1 L2 R2 Hov HT n Hagree.
  destruct (assuming inference_run model0 ckm nfft hop input1 sr path C ov T)
    as (fi & fo & Efi & Efo & E1); try assumption.
  destruct (assuming inference_run model0 ckm nfft hop input2 sr path C ov T)
    as (fi' & fo' & Efi' & Efo' & E2); try assumption.
  assert (fi' = fi) as -> by (unfold ok in *; congruence).
  assert (fo' = fo) as -> by (unfold ok in *; congruence).
  cbv zeta in E1, E2. rewrite E1, E2.
  assert (Hz : zeros_like input1 = zeros_like input2)
    by (rewrite (zeros_like_rect T input1 R1), (zeros_like_rect T input2 R2);
        congruence).
  assert (Hbuf :
    buffer_after B (load_state_dict B model0 ckm) nfft hop C (ov / 2) fi fo input1
      (chunk_starts (Z.of_nat T) C ov) (zeros_like input1)
    = buffer_after B (load_state_dict B model0 ckm) nfft hop C (ov / 2) fi fo input2
        (chunk_starts (Z.of_nat T) C ov) (zeros_like input2)).
  { rewrite Hz. apply buffer_after_ext. intros i Hi.
    unfold reconstructed.
    assert (Hn : 0 <= n) by (apply Z.div_pos; lia).
    assert (Hbound : 0 <= i /\ i + C <= (n - 1) * (C - ov) + C
                     /\ i + C <= Z.of_nat T).
    { pose proof (chunk_starts_inside (Z.of_nat T) C ov (proj2 Hov)) as Hin.
      rewrite Forall_forall in Hin. destruct (Hin i Hi) as [H0 H1].
      rewrite (proj2 (chunk_starts_eq (Z.of_nat T) C ov (proj2 Hov))) in Hi.
      apply in_map_iff in Hi as (k & <- & Hk). apply in_seq in Hk.
      rewrite range_len_chunks in Hk by lia. fold n in Hk. nia. }
    assert (Hrow : forall a b,
      length a = T -> length b = T ->
      (forall p, Z.of_nat p < (n - 1) * (C - ov) + C ->
         nth p a 0%Q = nth p b 0%Q) ->
      py_slice a i (Some (i + C)) = py_slice b i (Some (i + C))).
    { intros a b La Lb Hab.
      rewrite !py_slice_in by lia.
      apply (nth_ext _ _ 0%Q 0%Q).
      - rewrite !length_firstn, !length_skipn. lia.
      - intros k Hk. rewrite length_firstn, length_skipn in Hk.
        rewrite !nth_firstn, !nth_skipn.
        destruct (k <? Z.to_nat C)%nat; [|reflexivity].
        apply Hab. lia. }
    destruct input1 as [|a0 [|a1 [|? ?]]]; try discriminate.
    destruct input2 as [|b0 [|b1 [|? ?]]]; try discriminate.
    inversion R1 as [|? ? La0 R1']; inversion R1' as [|? ? La1 _]; subst.
    inversion R2 as [|? ? Lb0 R2']; inversion R2' as [|? ? Lb1 _]; subst.
    cbn [map].
    rewrite (Hrow a0 b0 eq_refl Lb0 (fun p Hp => Hagree 0%nat p Hp)).
    rewrite (Hrow a1 b1 La1 Lb1 (fun p Hp => Hagree 1%nat p Hp)).
    reflexivity. }
  rewrite Hbuf. reflexivity.
Qed.

(** C2: with [0 <= overlap < chunk_size <= total_length] the loop visits
    the starts [0, S, 2S, ...] with [S = chunk_size - overlap]; there are
    [(total_length - overlap) // S] of them and every chunk ends before
    [total_length].  The loop body at start [i] works on the samples
    [i, i + chunk_size) of each channel.  The run is the two loads, one
    transform, forward pass and inverse transform per start, and the save;
    in the saved waveform the samples of chunk [j] from offset
    [overlap / 2] up to the next start are the clamped reconstruction of
    that slice (when its spectrogram has at least two entries per channel:
    with one, torch's std is NaN), the samples from the end of the last
    chunk on are zero, and an input that differs only after the end of the
    last chunk gives the same run. *)
Theorem chunk_count_and_dropped_tail (model0 ckm : Params B) (nfft hop : Z)
    (input : Tensor2) (sr : Z) (path : string) (C ov : Z) (T : nat) :
  length input = 2%nat -> rect T input -> 0 <= ov < C -> C <= Z.of_nat T ->
  let stride := C - ov in
  let n := (Z.of_nat T - ov) / stride in
  let starts := chunk_starts (Z.of_nat T) C ov in
  let params := load_state_dict B model0 ckm in
  let chunk := fun i : Z =>
    map (fun r => firstn (Z.to_nat C) (skipn (Z.to_nat i) r)) input in
  let run := inference B model0 ckm input sr path C ov nfft hop in
  py_range 0 (Z.of_nat T - C + 1) stride = ok starts
  /\ Z.of_nat (length starts) = n
  /\ (forall j, (j < length starts)%nat -> nth j starts 0 = Z.of_nat j * stride)
  /\ Forall (fun i => 0 <= i /\ i + C - 1 < Z.of_nat T) starts
  /\ (forall i buf, In i starts ->
        chunk_iteration B params input C (ov / 2) nfft hop buf i
        = (inst_chunk <- separate_chunk B params nfft hop C (chunk i) ;;
           lift (overlap_add i C (ov / 2) buf inst_chunk))%run)
  /\ exists out,
       run = (EvLoadCheckpoint :: EvLoadAudio "input_wav"
                :: flat_map (fun _ => chunk_events) starts
                ++ [EvSaveAudio path out sr],
              ok out)
       /\ Z.of_nat (length (filter is_forward (trace run))) = n
       /\ (forall j c p rec,
             (j < length starts)%nat -> (c < 2)%nat ->
             Forall (fun ch => (2 <= length (concat ch))%nat)
                    (stft B nfft hop (chunk (Z.of_nat j * stride))) ->
             outcome (separate_chunk B params nfft hop C (chunk (Z.of_nat j * stride)))
             = ok rec ->
             Z.of_nat j * stride + ov / 2 <= Z.of_nat p < Z.of_nat j * stride + C ->
             ((S j < length starts)%nat -> Z.of_nat p < (Z.of_nat j + 1) * stride) ->
             (sample out c p
              == clamp (-1) 1 (sample rec c (p - Z.to_nat (Z.of_nat j * stride))))%Q)
       /\ (forall c p, (c < 2)%nat ->
             (n - 1) * stride + C <= Z.of_nat p -> (sample out c p == 0)%Q)
       /\ (forall input',
             length input' = 2%nat -> rect T input' ->
             (forall c p, Z.of_nat p < (n - 1) * stride + C ->
                sample input' c p = sample input c p) ->
             inference B model0 ckm input' sr path C ov nfft hop = run).
Proof.
  intros Hch Hrect Hov HT S0 n starts params chunk run.
  destruct (half_overlap ov C Hov) as [Hh HhC].
  assert (Hlen : Z.of_nat (length starts) = n)
    by (apply length_chunk_starts; lia).
  assert (Hn : 0 <= n) by (apply Z.div_pos; unfold S0; lia).
  assert (Hm : S0 * n <= Z.of_nat T - ov) by (apply Z.mul_div_le; unfold S0; lia).
  assert (Hin : Forall (fun i => 0 <= i /\ i + C <= Z.of_nat T) starts)
    by (apply chunk_starts_inside; lia).
  assert (Hchunk : forall i, 0 <= i -> i + C <= Z.of_nat T ->
            map (fun r => py_slice r i (Some (i + C))) input = chunk i).
  { intros i Hi0 HiT. unfold chunk. apply map_ext_in. intros r Hr.
    unfold rect in Hrect. rewrite Forall_forall in Hrect.
    specialize (Hrect r Hr). apply py_slice_in; lia. }
  split; [apply chunk_starts_eq; lia|].
  split; [exact Hlen|].
  split; [intros j Hj; apply nth_chunk_starts; [lia | exact Hj]|].
  split.
  { eapply Forall_impl; [|exact Hin]. simpl. intros i Hi. lia. }
  split.
  { intros i buf Hi. rewrite Forall_forall in Hin. destruct (Hin i Hi) as [Hi0 HiT].
    unfold chunk_iteration. cbv zeta. rewrite (Hchunk i Hi0 HiT). reflexivity. }
  destruct (assuming inference_run model0 ckm nfft hop input sr path C ov T)
    as (fi & fo & Efi & Efo & Erun); try assumption.
  cbv zeta in Erun. fold starts run params in Erun.
  eexists. split; [exact Erun|].
  split.
  { rewrite Erun. unfold trace. cbn [fst filter is_forward].
    rewrite filter_app, length_app, count_forward. cbn. lia. }
  split.
  { intros j c p rec Hj Hc _ Hrec Hp Hnext.
    assert (Ej : nth j starts 0 = Z.of_nat j * S0)
      by (apply nth_chunk_starts; [lia | exact Hj]).
    assert (Hij : 0 <= Z.of_nat j * S0 /\ Z.of_nat j * S0 + C <= Z.of_nat T).
    { rewrite <- Ej. rewrite Forall_forall in Hin. apply Hin. apply nth_In. exact Hj. }
    pose proof (saved_interior model0 ckm nfft hop input sr path C ov T j c p
                  Hch Hrect Hov) as Hs.
    cbv zeta in Hs. fold starts params run in Hs. rewrite Ej in Hs.
    assert (Hnext' : (S j < length starts)%nat ->
                     Z.of_nat p < Z.of_nat j * S0 + (C - ov))
      by (intros HSj; specialize (Hnext HSj); unfold S0 in *; lia).
    destruct (Hs Hj Hc Hp Hnext') as (out' & Eout & Hout).
    rewrite Erun in Eout. unfold outcome in Eout. cbn [snd] in Eout.
    injection Eout as <-.
    unfold reconstructed in Hout.
    rewrite (Hchunk _ (proj1 Hij) (proj2 Hij)) in Hout. rewrite Hrec in Hout.
    exact Hout. }
  split.
  { intros c p Hc Hp.
    destruct (linspace_ok 0 1 (ov / 2)) as (fi' & Efi' & Lfi); [lia|].
    destruct (linspace_ok 1 0 (ov / 2)) as (fo' & Efo' & Lfo); [lia|].
    assert (fi' = fi) as -> by (unfold ok in *; congruence).
    assert (fo' = fo) as -> by (unfold ok in *; congruence).
    destruct (zeros_like_shape T input Hrect) as [Hz Lz].
    rewrite sample_clamp by (split; discriminate).
    rewrite (assuming buffer_after_untouched params nfft hop input C (ov / 2)
               fi fo T starts (zeros_like input) ((n - 1) * S0 + C));
      try assumption; try lia.
    - rewrite sample_zeros_like. reflexivity.
    - unfold starts.
      rewrite (proj2 (chunk_starts_eq (Z.of_nat T) C ov (proj2 Hov))).
      rewrite Forall_forall. intros i Hi.
      apply in_map_iff in Hi as (k & <- & Hk). apply in_seq in Hk.
      rewrite range_len_chunks in Hk by lia. fold S0 n in Hk. fold S0. nia. }
  intros input' Hch' Hrect' Hagree. symmetry.
  apply (runs_agree model0 ckm nfft hop input input' sr path C ov T);
    try assumption.
  cbv zeta. fold S0 n. intros c p Hp. symmetry. apply Hagree. exact Hp.
Qed.

End InferenceOutput.

(** ** More on the dataset *)

Lemma entry_map_rows (g : list Q -> list Q) (t : Tensor3) c f k :
  (c < length t)%nat -> (f < length (nth c t []))%nat ->
  entry (map (map g) t) c f k = nth k (g (nth f (nth c t []) [])) 0%Q.
Proof.
  intros Hc Hf. unfold entry.
  rewrite (nth_map_lt _ _ _ []) by exact Hc.
  rewrite (nth_map_lt _ _ _ []) by exact Hf. reflexivity.
Qed.

Lemma rect3_map n m (g : list Q -> list Q) (t : Tensor3) :
  (forall r, length r = n -> length (g r) = m) ->
  rect3 n t -> rect3 m (map (map g) t).
Proof.
  intros Hg Ht. unfold rect3 in *. rewrite Forall_forall in *.
  intros c Hc. apply in_map_iff in Hc as (c0 & <- & Hc0).
  specialize (Ht c0 Hc0). rewrite Forall_forall in *.
  intros r Hr. apply in_map_iff in Hr as (r0 & <- & Hr0). auto.
Qed.

Lemma rect3_row n (t : Tensor3) c f :
  rect3 n t -> (c < length t)%nat -> (f < length (nth c t []))%nat ->
  length (nth f (nth c t []) []) = n.
Proof.
  intros Ht Hc Hf. unfold rect3 in Ht. rewrite Forall_forall in Ht.
  specialize (Ht (nth c t []) (nth_In _ _ Hc)). rewrite Forall_forall in Ht.
  apply Ht. apply nth_In. exact Hf.
Qed.

(** X13: when the spectrogram has more frames than requested, the item
    access returns, for both spectrograms, the same contiguous window: every
    row has exactly the requested number of frames, which are the row's
    frames from a common start on, and the window lies inside the
    spectrogram. *)
Theorem segment_window (ds : MUSDBDataset) (draw : Z)
    (mixture_spec vocals_spec : Tensor3) (available : nat) :
  segment ds = true -> segment_length ds <> 0 -> hop_length ds <> 0 ->
  let frames := segment_length ds / hop_length ds in
  0 <= frames -> frames < Z.of_nat available ->
  rect3 available mixture_spec -> rect3 available vocals_spec ->
  shape2 mixture_spec = Z.of_nat available ->
  exists start m v,
    segment_specs ds draw mixture_spec vocals_spec = ok (m, v)
    /\ (start + Z.to_nat frames <= available)%nat
    /\ rect3 (Z.to_nat frames) m /\ rect3 (Z.to_nat frames) v
    /\ (forall c f k,
          (c < length mixture_spec)%nat ->
          (f < length (nth c mixture_spec []))%nat -> (k < Z.to_nat frames)%nat ->
          entry m c f k = entry mixture_spec c f (start + k))
    /\ (forall c f k,
          (c < length vocals_spec)%nat ->
          (f < length (nth c vocals_spec []))%nat -> (k < Z.to_nat frames)%nat ->
          entry v c f k = entry vocals_spec c f (start + k)).
Proof.
  intros Hseg Hlen Hhop frames Hf0 Hgt Hm Hv Hshape.
  unfold segment_specs. rewrite Hseg.
  rewrite (proj2 (Z.eqb_neq _ _) Hlen). cbn [negb andb].
  unfold floordiv. rewrite (proj2 (Z.eqb_neq _ _) Hhop).
  rewrite ebind_ok. fold frames. rewrite Hshape.
  rewrite (proj2 (Z.geb_le (Z.of_nat available) frames)) by lia.
  unfold randint.
  rewrite (proj2 (Z.leb_gt (Z.of_nat available - frames) 0)) by lia.
  rewrite ebind_ok.
  pose proof (Z.mod_pos_bound draw (Z.of_nat available - frames - 0)) as Hb.
  set (start := 0 + draw mod (Z.of_nat available - frames - 0)) in *.
  assert (Hs : 0 <= start < Z.of_nat available - frames) by (unfold start; lia).
  assert (Hrow : forall r : list Q, length r = available ->
    py_slice r start (Some (start + frames))
    = firstn (Z.to_nat frames) (skipn (Z.to_nat start) r)).
  { intros r Hr. apply py_slice_in; lia. }
  assert (Hwin : forall (t : Tensor3), rect3 available t ->
    rect3 (Z.to_nat frames) (slice_frames start (start + frames) t)
    /\ forall c f k, (c < length t)%nat -> (f < length (nth c t []))%nat ->
         (k < Z.to_nat frames)%nat ->
         entry (slice_frames start (start + frames) t) c f k
         = entry t c f (Z.to_nat start + k)).
  { intros t Ht. split.
    - unfold slice_frames. eapply rect3_map; [|exact Ht].
      intros r Hr. rewrite Hrow by exact Hr.
      rewrite length_firstn, length_skipn. lia.
    - intros c f k Hc Hfr Hk. unfold slice_frames.
      rewrite entry_map_rows by assumption.
      rewrite Hrow by (apply rect3_row; assumption).
      rewrite nth_firstn, (proj2 (Nat.ltb_lt k (Z.to_nat frames))) by exact Hk.
      rewrite nth_skipn. reflexivity. }
  destruct (Hwin mixture_spec Hm) as [Rm Em].
  destruct (Hwin vocals_spec Hv) as [Rv Ev].
  exists (Z.to_nat start). eexists. eexists.
  split; [reflexivity|]. split; [lia|].
  repeat split; assumption.
Qed.

(** X14: when the spectrogram has fewer frames than requested, the item
    access returns both spectrograms with zeros appended to every row up to
    exactly the requested number of frames; the frames that were there are
    unchanged. *)
Theorem segment_padding (ds : MUSDBDataset) (draw : Z)
    (mixture_spec vocals_spec : Tensor3) (available : nat) :
  segment ds = true -> segment_length ds <> 0 -> hop_length ds <> 0 ->
  let frames := segment_length ds / hop_length ds in
  Z.of_nat available < frames ->
  rect3 available mixture_spec -> rect3 available vocals_spec ->
  shape2 mixture_spec = Z.of_nat available ->
  shape2 vocals_spec = Z.of_nat available ->
  exists m v,
    segment_specs ds draw mixture_spec vocals_spec = ok (m, v)
    /\ rect3 (Z.to_nat frames) m /\ rect3 (Z.to_nat frames) v
    /\ (forall c f k,
          (c < length mixture_spec)%nat ->
          (f < length (nth c mixture_spec []))%nat ->
          entry m c f k
          = if (k <? available)%nat then entry mixture_spec c f k else 0%Q)
    /\ (forall c f k,
          (c < length vocals_spec)%nat ->
          (f < length (nth c vocals_spec []))%nat ->
          entry v c f k
          = if (k <? available)%nat then entry vocals_spec c f k else 0%Q).
Proof.
  intros Hseg Hlen Hhop frames Hlt Hm Hv Hsm Hsv.
  unfold segment_specs. rewrite Hseg.
  rewrite (proj2 (Z.eqb_neq _ _) Hlen). cbn [negb andb].
  unfold floordiv. rewrite (proj2 (Z.eqb_neq _ _) Hhop).
  rewrite ebind_ok. fold frames. rewrite Hsm, Hsv.
  assert (Hge : (Z.of_nat available >=? frames) = false).
  { destruct (Z.of_nat available >=? frames) eqn:E; [|reflexivity].
    apply Z.geb_le in E. lia. }
  rewrite Hge.
  assert (Hpad : forall (t : Tensor3), rect3 available t ->
    rect3 (Z.to_nat frames) (pad_trailing (frames - Z.of_nat available) t)
    /\ forall c f k, (c < length t)%nat -> (f < length (nth c t []))%nat ->
         entry (pad_trailing (frames - Z.of_nat available) t) c f k
         = if (k <? available)%nat then entry t c f k else 0%Q).
  { intros t Ht. split.
    - unfold pad_trailing. eapply rect3_map; [|exact Ht].
      intros r Hr. rewrite length_app, repeat_length. lia.
    - intros c f k Hc Hfr. unfold pad_trailing.
      rewrite entry_map_rows by assumption.
      pose proof (rect3_row available t c f Ht Hc Hfr) as Lr.
      destruct (Nat.ltb_spec k available) as [Hk|Hk].
      + rewrite app_nth1 by lia. reflexivity.
      + rewrite app_nth2 by lia.
        destruct (Nat.lt_ge_cases (k - length (nth f (nth c t []) []))
                    (Z.to_nat (frames - Z.of_nat available))) as [Hin|Hout].
        * apply nth_repeat_lt. exact Hin.
        * apply nth_overflow. rewrite repeat_length. exact Hout. }
  destruct (Hpad mixture_spec Hm) as [Rm Em].
  destruct (Hpad vocals_spec Hv) as [Rv Ev].
  eexists. eexists. split; [reflexivity|].
  repeat split; assumption.
Qed.

Lemma Qsum_centered m d l :
  (Qsum (map (fun x => (x - m) / d) l)
   == (Qsum l - inject_Z (Z.of_nat (length l)) * m) * / d)%Q.
Proof.
  induction l as [|x l IH].
  - simpl. ring.
  - cbn [map length].
    change (Qsum (((x - m) / d)%Q :: map (fun x => ((x - m) / d)%Q) l))
      with ((x - m) / d + Qsum (map (fun x => ((x - m) / d)%Q) l))%Q.
    change (Qsum (x :: l)) with (x + Qsum l)%Q. rewrite IH.
    rewrite Nat2Z.inj_succ. unfold Z.succ. rewrite inject_Z_plus.
    unfold Qdiv. ring.
Qed.

(** X15: when every channel of a magnitude has at least two entries (with
    one, torch's std is NaN), every channel of the normalized magnitude has
    mean zero. *)
Theorem normalized_zero_mean (B : Backend) (mag : Tensor3) :
  Forall (fun c => (2 <= length (concat c))%nat) mag ->
  Forall (fun c => chan_mean c == 0)%Q (fst (fst (normalize B mag))).
Proof.
  intros Hne. unfold normalize. cbn [fst]. unfold mean12, std12.
  rewrite <- (map_id mag) at 1.
  rewrite (with_stats_map _ (fun c => c)).
  rewrite Forall_forall in *. intros c' Hc'.
  apply in_map_iff in Hc' as (c & <- & Hc).
  assert (Hne' : concat c <> []).
  { specialize (Hne c Hc). destruct (concat c); [simpl in Hne; lia | discriminate]. }
  clear Hne. rename Hne' into Hne.
  unfold chan_mean at 1.
  rewrite <- concat_map, length_map.
  rewrite Qsum_centered.
  pose proof (count_positive _ Hne) as Hn.
  set (n := inject_Z (Z.of_nat (length (concat c)))) in *.
  assert (Hz : (Qsum (concat c) - n * chan_mean c == 0)%Q).
  { unfold chan_mean. fold n. field. lra. }
  rewrite Hz. unfold Qdiv. ring.
Qed.

Section DatasetItems.

Variable B : Backend.

(** X16: whenever the item access returns, the two waveforms it returns
    are the two files cut to their common minimum length. *)
Theorem getitem_waveforms_truncated (ds : MUSDBDataset) (track : Track)
    (draw : Z) (Lm Lv : nat) (ms vs : Tensor3) (mw vw : Tensor2) :
  rect Lm (other_wav track) -> rect Lv (vocals_wav track) ->
  outcome (getitem B ds track draw) = ok (ms, vs, mw, vw) ->
  mw = map (firstn (Nat.min Lm Lv)) (other_wav track)
  /\ vw = map (firstn (Nat.min Lm Lv)) (vocals_wav track)
  /\ rect (Nat.min Lm Lv) mw /\ rect (Nat.min Lm Lv) vw
  /\ length mw = 2%nat /\ length vw = 2%nat.
Proof.
  intros Rm Rv. unfold getitem.
  rewrite rbind_emit. cbv zeta. rewrite rbind_emit.
  destruct (shape0 (other_wav track) =? 2) eqn:Em;
    [|cbn; unfold raise; discriminate].
  destruct (shape0 (vocals_wav track) =? 2) eqn:Ev;
    [|cbn; unfold raise; discriminate].
  cbn [negb orb]. apply Z.eqb_eq in Em, Ev. unfold shape0 in Em, Ev.
  rewrite (shape1_rect Lm _ Rm), (shape1_rect Lv _ Rv) by lia.
  rewrite !rbind_emit. unfold outcome. cbn [snd].
  assert (Hcut : forall L (w : Tensor2), rect L w ->
    (Nat.min Lm Lv <= L)%nat ->
    map (fun r => py_slice r 0 (Some (Z.min (Z.of_nat Lm) (Z.of_nat Lv)))) w
    = map (firstn (Nat.min Lm Lv)) w
    /\ rect (Nat.min Lm Lv) (map (firstn (Nat.min Lm Lv)) w)).
  { intros L w Rw HL. split.
    - apply map_ext_in. intros r Hr.
      unfold rect in Rw. rewrite Forall_forall in Rw. specialize (Rw r Hr).
      rewrite py_slice_prefix by lia. f_equal. lia.
    - eapply rect_map; [|exact Rw]. intros r Hr. rewrite length_firstn. lia. }
  destruct (Hcut Lm _ Rm (Nat.le_min_l _ _)) as [Cm Rm'].
  destruct (Hcut Lv _ Rv (Nat.le_min_r _ _)) as [Cv Rv'].
  rewrite Cm, Cv.
  destruct (segment_specs ds draw _ _) as [e|[m v]];
    [cbn; discriminate|].
  cbn. intros H. injection H as <- <- <- <-.
  repeat split; try assumption; rewrite length_map; lia.
Qed.

End DatasetItems.

(** ** More on the command line *)

(** X17: whatever the arguments, [main] runs at most one mode: training
    exactly when [--train] is given, inference exactly when [--train] is
    absent, [--infer] is given and an input file is named; in every other
    case it only prints one message. *)
Theorem main_dispatch (args : Args) :
  (modes_run (main args) <= 1)%nat
  /\ (length (filter runs_train (main args)) = 1%nat <-> arg_train args = true)
  /\ (length (filter runs_infer (main args)) = 1%nat
      <-> arg_train args = false /\ arg_infer args = true
          /\ arg_input_wav args <> None)
  /\ (modes_run (main args) = 0%nat ->
      exists msg, main args = [PrintMessage msg]).
Proof.
  unfold main, modes_run.
  destruct (arg_train args), (arg_infer args), (arg_input_wav args);
    cbn; repeat split; intros; try lia; try discriminate; try congruence;
    try (eexists; reflexivity);
    try (match goal with H : _ /\ _ |- _ => destruct H as (? & ? & ?) end;
         congruence).
Qed.

(** ** The shapes inside the network *)

Lemma dilation_rates_eq (net : SimpleCNN) :
  dilation_rates net
  = ok (map (fun k => dilation_rate net ^ Z.of_nat k)
            (seq 0 (Z.to_nat (num_layers net - 2)))).
Proof.
  unfold dilation_rates, py_range. cbn [Z.eqb]. rewrite ebind_ok.
  rewrite map_map. f_equal.
  assert (E : Z.to_nat (range_len 0 (num_layers net - 2) 1)
              = Z.to_nat (num_layers net - 2)).
  { unfold range_len. cbn [Z.ltb Z.compare].
    destruct (Z.ltb_spec 0 (num_layers net - 2)).
    - rewrite Z.div_1_r. lia.
    - lia. }
  rewrite E. apply map_ext. intros k. f_equal. lia.
Qed.

Lemma foldM_fixed {A S} (f : S -> A -> Err S) l s :
  Forall (fun a => f s a = ok s) l -> foldM f l s = ok s.
Proof.
  induction 1 as [|a l Ha H IH]; simpl; [reflexivity|].
  rewrite Ha, ebind_ok. exact IH.
Qed.

Lemma broadcast_dim_same a : broadcast_dim a a = ok a.
Proof. unfold broadcast_dim. rewrite Z.eqb_refl. reflexivity. Qed.

Lemma broadcast_dim_one a : broadcast_dim a 1 = ok a.
Proof.
  unfold broadcast_dim. destruct (Z.eqb_spec a 1) as [->|H]; [reflexivity|].
  reflexivity.
Qed.

Lemma conv3_keeps_shape in_ch out_ch d h w :
  1 <= in_ch -> 1 <= out_ch -> 1 <= d -> 1 <= h -> 1 <= w ->
  conv2d_shape in_ch out_ch 3 d d (in_ch, h, w) = ok (out_ch, h, w).
Proof.
  intros Hi Ho Hd Hh Hw. unfold conv2d_shape.
  rewrite (proj2 (Z.leb_gt in_ch 0)), (proj2 (Z.leb_gt out_ch 0)) by lia.
  rewrite (proj2 (Z.ltb_ge d 0)), (proj2 (Z.leb_gt d 0)) by lia. cbn [orb].
  rewrite Z.eqb_refl. cbn [negb].
  replace (h + 2 * d - d * (3 - 1) - 1 + 1) with h by lia.
  replace (w + 2 * d - d * (3 - 1) - 1 + 1) with w by lia.
  rewrite (proj2 (Z.leb_gt h 0)), (proj2 (Z.leb_gt w 0)) by lia.
  reflexivity.
Qed.

Lemma block_keeps_shape (net : SimpleCNN) h w d :
  1 <= hidden_size net -> 1 <= d -> 1 <= h -> 1 <= w ->
  block_shape net (hidden_size net, h, w) d = ok (hidden_size net, h, w).
Proof.
  intros Hn Hd Hh Hw. unfold block_shape.
  rewrite conv3_keeps_shape by assumption.
  rewrite ebind_ok. unfold bn_relu_shape. rewrite Z.eqb_refl. cbn [negb].
  rewrite ebind_ok.
  unfold squeeze_excitation_shape, linear_shape, add_shape, broadcast_shape.
  repeat (progress (rewrite ?Z.eqb_refl, ?ebind_ok, ?broadcast_dim_same,
                      ?broadcast_dim_one; cbn [negb])).
  reflexivity.
Qed.

(** X18: for a network with at least one input channel, a hidden width of
    at least 16 and a dilation rate of at least 1: it has
    [max 0 (num_layers - 2)] residual blocks, block [k] with dilation
    [dilation_rate ^ k]; every layer keeps height and width, so on an input
    of [in_channels] channels the forward pass returns a magnitude and a
    phase of exactly the input's shape; an input with another channel count
    is rejected by the first convolution. *)
Theorem forward_keeps_shape (net : SimpleCNN) (c h w : Z) :
  1 <= in_channels net -> 16 <= hidden_size net ->
  1 <= dilation_rate net -> 1 <= h -> 1 <= w -> 0 <= c ->
  (exists rates,
     dilation_rates net = ok rates
     /\ Z.of_nat (length rates) = Z.max 0 (num_layers net - 2)
     /\ forall k, (k < length rates)%nat ->
          nth k rates 0 = dilation_rate net ^ Z.of_nat k)
  /\ forward_shape net (in_channels net, h, w)
     = ok ((in_channels net, h, w), (in_channels net, h, w))
  /\ (c <> in_channels net ->
      forward_shape net (c, h, w) = raise (RuntimeError "channel mismatch")).
Proof.
  intros Hin Hhid Hr Hh Hw Hc0. split; [|split].
  - eexists. split; [apply dilation_rates_eq|].
    rewrite length_map, length_seq. split; [lia|].
    intros k Hk. rewrite (nth_map_lt _ _ _ 0%nat) by (rewrite length_seq; lia).
    rewrite seq_nth by lia. reflexivity.
  - unfold forward_shape.
    rewrite conv3_keeps_shape by lia.
    rewrite ebind_ok. unfold bn_relu_shape. rewrite Z.eqb_refl. cbn [negb].
    rewrite ebind_ok, dilation_rates_eq, ebind_ok.
    rewrite foldM_fixed.
    + rewrite ebind_ok. rewrite conv3_keeps_shape by lia.
      rewrite !ebind_ok. reflexivity.
    + rewrite Forall_forall. intros d Hd.
      apply in_map_iff in Hd as (k & <- & _).
      assert (0 < dilation_rate net ^ Z.of_nat k)
        by (apply Z.pow_pos_nonneg; lia).
      apply block_keeps_shape; lia.
  - intros Hc. unfold forward_shape, conv2d_shape.
    rewrite (proj2 (Z.leb_gt (in_channels net) 0)),
      (proj2 (Z.leb_gt (hidden_size net) 0)) by lia.
    cbn [Z.ltb Z.leb Z.compare orb].
    rewrite (proj2 (Z.eqb_neq _ _) Hc). reflexivity.
Qed.

(** ** The further statements at concrete inputs *)

Lemma chunk_count_and_dropped_tail_witness :
  py_range 0 (Z.of_nat 14 - 8 + 1) (8 - 4) = ok (chunk_starts (Z.of_nat 14) 8 4)
  /\ Z.of_nat (length (chunk_starts (Z.of_nat 14) 8 4))
     = (Z.of_nat 14 - 4) / (8 - 4)
  /\ exists out,
       outcome (inference Toy.backend 0%Q 0%Q (Toy.ramp 14) 44100 "out.wav"
                  8 4 4096 1024) = ok out
       /\ Z.of_nat (length (filter is_forward
                      (trace (inference Toy.backend 0%Q 0%Q (Toy.ramp 14) 44100
                                "out.wav" 8 4 4096 1024))))
          = (Z.of_nat 14 - 4) / (8 - 4)
       /\ (sample out 0 12 == 0)%Q
       /\ (sample out 1 13 == 0)%Q.
Proof.
  pose proof (chunk_count_and_dropped_tail Toy.backend ToyFacts.toy_stft_channels
                ToyFacts.toy_forward_channels ToyFacts.toy_istft_shape
                0%Q 0%Q 4096 1024 (Toy.ramp 14) 44100 "out.wav"%string 8 4 14
                eq_refl (ToyFacts.toy_rect_ramp 14) ltac:(lia) ltac:(lia)) as H.
  cbv zeta in H.
  destruct H as (Hr & Hn & _ & _ & _ & out & Erun & Hf & _ & Htail & _).
  split; [exact Hr|]. split; [exact Hn|].
  exists out. split; [rewrite Erun; reflexivity|]. split; [exact Hf|].
  split; apply Htail; try lia;
    change (((Z.of_nat 14 - 4) / (8 - 4) - 1) * (8 - 4) + 8) with 12; lia.
Defined.

Lemma loss_fn_zero_iff_exact_witness :
  (exists loss,
     loss_fn (Toy.batch1 1 2) (Toy.batch1 0 1) (Toy.batch1 3 5) (Toy.batch1 0 1)
     = ok loss /\ (0 <= loss)%Q)
  /\ (exists loss,
        loss_fn (Toy.batch1 1 2) (Toy.batch1 0 1) [[[[1]]; [[2]]]]%Q
          (Toy.batch1 0 1)
        = ok loss /\ (0 <= loss)%Q)
  /\ (exists loss,
        loss_fn (Toy.batch1 1 2) (Toy.batch1 0 1) (Toy.batch1 1 2)
          (Toy.batch1 0 1)
        = ok loss /\ (loss == 0)%Q).
Proof.
  split; [|split].
  - destruct (loss_fn_zero_iff_exact (Toy.batch1 1 2) (Toy.batch1 0 1)
                (Toy.batch1 3 5) (Toy.batch1 0 1)
                (Toy.batch1 (-2) (-3)) (Toy.batch1 0 0)
                eq_refl eq_refl ltac:(discriminate) ltac:(discriminate))
      as (loss & E & H0 & _).
    exists loss. split; [exact E | exact H0].
  - destruct (loss_fn_zero_iff_exact (Toy.batch1 1 2) (Toy.batch1 0 1)
                [[[[1]]; [[2]]]]%Q (Toy.batch1 0 1)
                [[[[0; 1]]; [[0; -1]]]]%Q (Toy.batch1 0 0)
                eq_refl eq_refl ltac:(discriminate) ltac:(discriminate))
      as (loss & E & H0 & _).
    exists loss. split; [exact E | exact H0].
  - destruct (loss_fn_zero_iff_exact (Toy.batch1 1 2) (Toy.batch1 0 1)
                (Toy.batch1 1 2) (Toy.batch1 0 1)
                (Toy.batch1 0 0) (Toy.batch1 0 0)
                eq_refl eq_refl ltac:(discriminate) ltac:(discriminate))
      as (loss & E & _ & Hz).
    exists loss. split; [exact E|]. apply Hz. split; repeat constructor.
Defined.

Lemma running_average_is_mean_witness :
  let st := state_after Toy.backend (train_init Toy.backend 1%Q tt None)
              [[]; []; []] 3 in
  step Toy.backend st = 3
  /\ length (loss_log Toy.backend st) = 3%nat
  /\ (avg_loss Toy.backend st * inject_Z 3 == Qsum (loss_log Toy.backend st))%Q.
Proof.
  apply (running_average_is_mean Toy.backend 1%Q tt [[]; []; []] 3).
  simpl. lia.
Defined.

Lemma resume_restarts_scheduler_witness :
  let st := state_after Toy.backend
              (train_init Toy.backend 7%Q tt (Some (Toy.checkpoint 100 [1%Q])))
              [[]; []] 2 in
  step Toy.backend st = 102 /\ scheduler_steps Toy.backend st = 2.
Proof.
  cbv zeta.
  destruct (resume_restarts_scheduler Toy.backend 7%Q tt
              (Toy.checkpoint 100 [1%Q]) [[]; []] 2 ltac:(simpl; lia))
    as (Hs & Hsch & _).
  split; [exact Hs | exact Hsch].
Defined.

Lemma resumed_run_checkpoints_witness :
  exists fs,
    train Toy.backend 7%Q tt [[]; []; []] 2
      (Some (Toy.checkpoint 3 [1; 1; 1]%Q)) []
    = ok (state_after Toy.backend
            (train_init Toy.backend 7%Q tt (Some (Toy.checkpoint 3 [1; 1; 1]%Q)))
            [[]; []; []] 3, fs)
    /\ torch_load Toy.backend (checkpoint_step_pt 5) fs = None
    /\ torch_load Toy.backend (checkpoint_step_pt 2) fs = None.
Proof.
  destruct (resumed_run_checkpoints Toy.backend 7%Q tt
              (Toy.checkpoint 3 [1; 1; 1]%Q) [[]; []; []] 2 []
              ltac:(discriminate) ltac:(simpl; lia)) as (fs & E & H).
  exists fs. split; [exact E|]. split.
  - rewrite (H 5). reflexivity.
  - rewrite (H 2). reflexivity.
Defined.

Lemma final_loss_log_saved_witness :
  exists st fs,
    train Toy.backend 1%Q tt [[]; []; []] 2 None [] = ok (st, fs)
    /\ torch_load Toy.backend loss_log_pt fs
       = Some (LossLogData Toy.backend (loss_log Toy.backend st))
    /\ length (loss_log Toy.backend st) = 3%nat.
Proof.
  destruct (final_loss_log_saved Toy.backend 1%Q tt None [[]; []; []] 2 []
              ltac:(discriminate) ltac:(simpl; lia))
    as (st & fs & E & Hl & Hn & _).
  exists st, fs. split; [exact E|]. split; [exact Hl | exact Hn].
Defined.

Lemma zero_checkpoint_steps_raises_witness :
  train Toy.backend 1%Q tt [[]; []] 0 None [] = raise ZeroDivisionError
  /\ train Toy.backend 1%Q tt [[]; []] 2 (Some (Toy.checkpoint (-1) [])) []
     = raise ZeroDivisionError.
Proof.
  split.
  - apply (proj2 (zero_checkpoint_steps_raises Toy.backend 1%Q tt None
                    [] [[]] 0 [] (or_introl eq_refl))).
  - apply (proj2 (zero_checkpoint_steps_raises Toy.backend 1%Q tt
                    (Some (Toy.checkpoint (-1) [])) [] [[]] 2 []
                    (or_intror eq_refl))).
Defined.

Lemma predicted_phase_unused_witness :
  inference (with_forward Toy.backend Toy.other_phase) 0%Q 0%Q (Toy.ramp 14)
    44100 "out.wav" 8 4 4096 1024
  = inference Toy.backend 0%Q 0%Q (Toy.ramp 14) 44100 "out.wav" 8 4 4096 1024.
Proof.
  apply (predicted_phase_unused Toy.backend Toy.other_phase 0%Q 0%Q (Toy.ramp 14)
           44100 "out.wav"%string 8 4 4096 1024).
  intros p x. reflexivity.
Defined.

Lemma equal_overlap_raises_witness :
  inference Toy.backend 0%Q 0%Q (Toy.ramp 14) 44100 "out.wav" 8 8 4096 1024
  = ([EvLoadCheckpoint; EvLoadAudio "input_wav"], raise ZeroDivisionError).
Proof.
  apply (equal_overlap_raises Toy.backend 0%Q 0%Q (Toy.ramp 14) 44100
           "out.wav"%string 8 4096 1024).
  reflexivity.
Defined.

Lemma output_shape_and_clipping_witness :
  exists out,
    outcome (inference Toy.backend 0%Q 0%Q (Toy.ramp 14) 44100 "out.wav"
               8 4 4096 1024) = ok out
    /\ length out = 2%nat /\ rect 14 out
    /\ (-1 <= sample out 1 5 <= 1)%Q.
Proof.
  assert (Hentries : forall i, In i (chunk_starts (Z.of_nat 14) 8 4) ->
            Forall (fun c => (2 <= length (concat c))%nat)
                   (stft Toy.backend 4096 1024
                      (map (fun r => py_slice r i (Some (i + 8))) (Toy.ramp 14)))).
  { intros i Hi. vm_compute in Hi.
    destruct Hi as [<-|[<-|[]]]; vm_compute; repeat constructor. }
  destruct (output_shape_and_clipping Toy.backend ToyFacts.toy_stft_channels
              ToyFacts.toy_forward_channels ToyFacts.toy_istft_shape
              0%Q 0%Q 4096 1024 (Toy.ramp 14) 44100 "out.wav"%string 8 4 14
              eq_refl (ToyFacts.toy_rect_ramp 14) ltac:(lia) Hentries)
    as (out & E & Hl & Hr & Hc & _).
  exists out. split; [exact E|]. split; [exact Hl|]. split; [exact Hr|].
  apply Hc.
Defined.

Lemma chunk_interior_is_reconstruction_witness :
  exists out,
    outcome (inference Toy.backend 0%Q 0%Q (Toy.ramp 14) 44100 "out.wav"
               8 4 4096 1024) = ok out
    /\ (sample out 0 3
        == clamp (-1) 1
             (sample (reconstructed Toy.backend 0%Q 4096 1024 8 (Toy.ramp 14) 0)
                     0 3))%Q.
Proof.
  apply (chunk_interior_is_reconstruction Toy.backend ToyFacts.toy_stft_channels
           ToyFacts.toy_forward_channels ToyFacts.toy_istft_shape
           0%Q 0%Q 4096 1024 (Toy.ramp 14) 44100 "out.wav"%string 8 4 14
           0 0 3 eq_refl (ToyFacts.toy_rect_ramp 14) ltac:(lia));
    [vm_compute; lia | lia | | intros _];
    change (nth 0 (chunk_starts (Z.of_nat 14) 8 4) 0) with 0;
    change (4 / 2) with 2; lia.
Defined.

Lemma crossfade_endpoints_witness :
  exists cur,
    outcome (chunk_iteration Toy.backend 0%Q (Toy.ramp 14) 8 (4 / 2) 4096 1024
               (Toy.ramp 14) 4) = ok cur
    /\ (sample cur 0 4 == sample (Toy.ramp 14) 0 4)%Q.
Proof.
  destruct (crossfade_endpoints Toy.backend ToyFacts.toy_stft_channels
              ToyFacts.toy_forward_channels ToyFacts.toy_istft_shape
              0%Q 4096 1024 (Toy.ramp 14) (Toy.ramp 14) 8 4 4 14 0
              eq_refl (ToyFacts.toy_rect_ramp 14) eq_refl
              ltac:(lia) ltac:(lia) ltac:(lia) ltac:(lia))
    as (cur & E & H1 & _).
  exists cur. split; [exact E|]. apply H1. vm_compute. discriminate.
Defined.

Lemma rect_ramp_other_tail : rect 14 Toy.ramp_other_tail.
Proof. repeat constructor. Qed.

Lemma trailing_samples_ignored_witness :
  inference Toy.backend 0%Q 0%Q (Toy.ramp 14) 44100 "out.wav" 8 4 4096 1024
  = inference Toy.backend 0%Q 0%Q Toy.ramp_other_tail 44100 "out.wav"
      8 4 4096 1024.
Proof.
  apply (trailing_samples_ignored Toy.backend ToyFacts.toy_stft_channels
           ToyFacts.toy_forward_channels ToyFacts.toy_istft_shape
           0%Q 0%Q 4096 1024 (Toy.ramp 14) Toy.ramp_other_tail 44100
           "out.wav"%string 8 4 14
           eq_refl (ToyFacts.toy_rect_ramp 14) eq_refl rect_ramp_other_tail
           ltac:(lia) ltac:(lia)).
  intros c p Hp.
  assert (Hp' : (p < 12)%nat).
  { change (((Z.of_nat 14 - 4) / (8 - 4) - 1) * (8 - 4) + 8) with 12 in Hp.
    lia. }
  do 12 (destruct p as [|p]; [destruct c as [|[|c]]; reflexivity|]).
  lia.
Defined.

Lemma rect3_frames6 : rect3 6 Toy.frames6.
Proof. repeat constructor. Qed.

Lemma segment_window_witness :
  exists start m v,
    segment_specs Toy.dataset 5 Toy.frames6 Toy.frames6 = ok (m, v)
    /\ (start + 4 <= 6)%nat /\ rect3 4 m
    /\ entry m 1 0 0 = entry Toy.frames6 1 0 start.
Proof.
  destruct (segment_window Toy.dataset 5 Toy.frames6 Toy.frames6 6
              eq_refl ltac:(discriminate) ltac:(discriminate)
              ltac:(discriminate) eq_refl rect3_frames6 rect3_frames6 eq_refl)
    as (start & m & v & E & Hs & Rm & _ & Em & _).
  exists start, m, v. split; [exact E|]. split; [exact Hs|]. split; [exact Rm|].
  rewrite (Em 1%nat 0%nat 0%nat) by (simpl; lia). f_equal. lia.
Defined.

Lemma rect3_two_frames :
  rect3 2 ([[[1; 2]]; [[3; 4]]]%Q : Tensor3).
Proof. repeat constructor. Qed.

Lemma segment_padding_witness :
  exists m v,
    segment_specs Toy.dataset 0 [[[1; 2]]; [[3; 4]]]%Q [[[1; 2]]; [[3; 4]]]%Q
    = ok (m, v)
    /\ rect3 4 m /\ entry m 1 0 1 = 4%Q /\ entry m 1 0 3 = 0%Q.
Proof.
  destruct (segment_padding Toy.dataset 0 [[[1; 2]]; [[3; 4]]]%Q
              [[[1; 2]]; [[3; 4]]]%Q 2
              eq_refl ltac:(discriminate) ltac:(discriminate)
              eq_refl rect3_two_frames rect3_two_frames eq_refl eq_refl)
    as (m & v & E & Rm & _ & Em & _).
  exists m, v. split; [exact E|]. split; [exact Rm|].
  split; rewrite Em by (simpl; lia); reflexivity.
Defined.

Lemma normalized_zero_mean_witness :
  Forall (fun c => chan_mean c == 0)%Q
         (fst (fst (normalize Toy.backend Toy.steps3))).
Proof.
  apply (normalized_zero_mean Toy.backend Toy.steps3).
  repeat constructor.
Defined.

Lemma getitem_waveforms_truncated_witness :
  match outcome (getitem Toy.backend Toy.dataset_whole
                   {| other_wav := Toy.ramp 6; vocals_wav := Toy.ramp 4 |} 0) with
  | inr (_, _, mw, vw) => rect 4 mw /\ rect 4 vw
  | inl _ => False
  end.
Proof.
  destruct (outcome (getitem Toy.backend Toy.dataset_whole
                       {| other_wav := Toy.ramp 6; vocals_wav := Toy.ramp 4 |} 0))
    as [e|[[[ms vs] mw] vw]] eqn:E.
  - vm_compute in E. discriminate.
  - destruct (getitem_waveforms_truncated Toy.backend Toy.dataset_whole
                {| other_wav := Toy.ramp 6; vocals_wav := Toy.ramp 4 |} 0
                6 4 ms vs mw vw
                (ToyFacts.toy_rect_ramp 6) (ToyFacts.toy_rect_ramp 4) E)
      as (_ & _ & Rm & Rv & _).
    split; [exact Rm | exact Rv].
Defined.

Lemma forward_keeps_shape_witness :
  forward_shape Toy.net (2, 2049, 17) = ok ((2, 2049, 17), (2, 2049, 17))
  /\ forward_shape Toy.net (1, 2049, 17)
     = raise (RuntimeError "channel mismatch").
Proof.
  destruct (forward_keeps_shape Toy.net 1 2049 17
              ltac:(simpl; lia) ltac:(simpl; lia) ltac:(simpl; lia)
              ltac:(lia) ltac:(lia) ltac:(lia)) as (_ & Hk & Hc).
  split; [exact Hk|]. apply Hc. discriminate.
Defined.
